(** * NLPC: the fine-tuning loop of [code/bert.py]

    A shallow embedding of [accuracy] and [main] of [code/bert.py], and the
    properties of the training / evaluation / checkpoint loop.

    - Python and numpy floats are IEEE binary64 values, modelled by the
      Standard Library's executable specification [spec_float]
      (precision 53, exponent bound 1024), so that [nan], the infinities and
      rounding behave as they do in the program.
    - numpy's [int64] scalars are integers of [Z] with the wrap-around
      written out ([wrap64]).
    - Python exceptions are the [Raise] results of [result].
    - The model, the optimizer, the scheduler, the progress bar, the logger
      and [torch.save] are external collaborators: every call [main] makes to
      them is recorded, in order, in a trace of [event]s, and what the model
      answers is an arbitrary function of the calls made so far. *)

From Stdlib Require Import String ZArith List Lia Bool SpecFloat.
Import ListNotations.
Local Open Scope Z_scope.

(** ** Python results *)

Inductive exn : Type :=
| ZeroDivisionError
| IndexError
| ValueError.

Inductive result (A : Type) : Type :=
| Ok (a : A)
| Raise (e : exn).
Arguments Ok {A} a.
Arguments Raise {A} e.

Definition len {A : Type} (l : list A) : Z := Z.of_nat (List.length l).

(** ** binary64 *)

Definition float : Type := spec_float.

Module F64.

Definition prec : Z := 53.
Definition emax : Z := 1024.

Definition add : float -> float -> float := SFadd prec emax.
Definition mul : float -> float -> float := SFmul prec emax.
Definition div : float -> float -> float := SFdiv prec emax.
(** [leb x y] is Python's [x <= y]: false as soon as one side is [nan]. *)
Definition leb : float -> float -> bool := SFleb.
(** [geb x y] is Python's [x >= y]. *)
Definition geb (x y : float) : bool := SFleb y x.

Definition is_nan (x : float) : bool :=
  match x with S754_nan => true | _ => false end.

(** The conversion of an integer to the nearest binary64 (ties to even),
    as C's cast of an [int64] and Python's [float(n)] do. *)
Definition of_Z (z : Z) : float := binary_normalize prec emax z 0 false.

Definition zero : float := S754_zero false.
Definition nan : float := S754_nan.

(** The binary64 nearest to the decimal [m / 10^e], which is what Python
    reads the literal as when [m] and [10^e] are below [2^53]. *)
Definition decimal (m : Z) (e : nat) : float :=
  div (of_Z m) (of_Z (10 ^ Z.of_nat e)).

(** Python's [sum] of floats: left to right, from the integer [0], which
    the first addition converts to [0.0]. *)
Definition sum (l : list float) : float := fold_left add l zero.

End F64.

(** ** numpy scalars and arrays *)

(** [int64] arithmetic wraps around silently. *)
Definition wrap64 (z : Z) : Z := (z + 2 ^ 63) mod 2 ^ 64 - 2 ^ 63.

(** Python's [sum(a)] over a non-empty [int64] array: [0 + a[0] + ...],
    every partial sum an [int64]. Over an empty array it is Python's [0]. *)
Definition np_sum (a : list Z) : Z :=
  fold_left (fun acc x => wrap64 (acc + x)) a 0.

(** numpy's true division of two integers: both are converted to binary64
    and divided there; a zero divisor gives [nan] or an infinity (with a
    warning), never an exception. *)
Definition np_true_divide (a b : Z) : float :=
  F64.div (F64.of_Z a) (F64.of_Z b).

(** Python's [x / n] for a float [x] and an integer [n]. *)
Definition py_truediv (x : float) (n : Z) : result float :=
  if n =? 0 then Raise ZeroDivisionError else Ok (F64.div x (F64.of_Z n)).

(** [np.argmax] over one row: the first maximum; a [nan] counts as the
    maximum and stops the scan. *)
Fixpoint argmax_scan (mp : float) (max_ind i : Z) (row : list float) : Z :=
  match row with
  | [] => max_ind
  | x :: rest =>
      if F64.leb x mp then argmax_scan mp max_ind (i + 1) rest
      else if F64.is_nan x then i
      else argmax_scan x i (i + 1) rest
  end.

Definition np_argmax (row : list float) : result Z :=
  match row with
  | [] => Raise ValueError
  | x :: rest => if F64.is_nan x then Ok 0 else Ok (argmax_scan x 0 1 rest)
  end.

(** [np.argmax(logits, axis=1)] *)
Fixpoint np_argmax_axis1 (logits : list (list float)) : result (list Z) :=
  match logits with
  | [] => Ok []
  | row :: rows =>
      match np_argmax row with
      | Raise e => Raise e
      | Ok c =>
          match np_argmax_axis1 rows with
          | Raise e => Raise e
          | Ok cs => Ok (c :: cs)
          end
      end
  end.

(** [outputs == labels] on one-dimensional arrays: elementwise, an array of
    length one is broadcast, other shapes do not match. *)
Definition np_equal (a b : list Z) : result (list bool) :=
  if len a =? len b then Ok (map (fun p => fst p =? snd p) (combine a b))
  else match a, b with
       | [x], _ => Ok (map (fun y => x =? y) b)
       | _, [y] => Ok (map (fun x => x =? y) a)
       | _, _ => Raise ValueError
       end.

(** ** [accuracy] (bert.py, lines 18-21) *)

(** Line 20: the list comprehension over [range(len(outputs))]; [labels[i]]
    raises when [labels] is the shorter one. *)
Fixpoint sum1_terms (outputs labels : list Z) : result (list Z) :=
  match outputs with
  | [] => Ok []
  | o :: os =>
      match labels with
      | [] => Raise IndexError
      | l :: ls =>
          match sum1_terms os ls with
          | Raise e => Raise e
          | Ok ts => Ok ((if (o =? l) && (l =? 1) then 1 else 0) :: ts)
          end
      end
  end.

(** Python's [sum] of a list of Python integers. *)
Definition py_sum (l : list Z) : Z := fold_left Z.add l 0.

Definition accuracy (logits : list (list float)) (labels : list Z)
  : result (float * float * float) :=
  match np_argmax_axis1 logits with
  | Raise e => Raise e
  | Ok outputs =>
      match sum1_terms outputs labels with
      | Raise e => Raise e
      | Ok terms =>
          let sum1 := py_sum terms in
          match np_equal outputs labels with
          | Raise e => Raise e
          | Ok eqs =>
              (* [sum(outputs == labels) / len(outputs)]: [0 / 0] on Python
                 integers when the batch is empty, numpy's division of an
                 [int64] otherwise *)
              if len outputs =? 0 then Raise ZeroDivisionError
              else Ok (np_true_divide (np_sum (map Z.b2z eqs)) (len outputs),
                       np_true_divide sum1 (np_sum outputs),
                       np_true_divide sum1 (np_sum labels))
          end
      end
  end.

(** ** Datasets and [torch.utils.data.DataLoader] *)

(** One item of a dataset: token ids, attention mask, label. *)
Record Example : Type := {
  input_ids : list Z;
  attn_mask : list Z;
  label : Z
}.

(** A collated batch: the three stacked tensors. *)
Record Batch : Type := {
  b_input_ids : list (list Z);
  b_attn_mask : list (list Z);
  b_labels : list Z
}.

Definition Dataset : Type := list Example.

(** [DataLoader(dataset, sampler=SequentialSampler(dataset),
    batch_size=K, drop_last=False)] *)
Record DataLoader : Type := {
  dl_dataset : Dataset;
  dl_batch_size : Z
}.

(** The constructor refuses a batch size that is not positive. *)
Definition mkDataLoader (ds : Dataset) (K : Z) : result DataLoader :=
  if K <=? 0 then Raise ValueError
  else Ok {| dl_dataset := ds; dl_batch_size := K |}.

(** [SequentialSampler]: the indices [0 .. len(dataset)-1], in order. *)
Definition sequential_sampler (ds : Dataset) : list nat :=
  seq 0 (List.length ds).

(** [BatchSampler.__iter__] with [drop_last=False]: indices are appended to
    [batch]; a batch that reaches [K] indices is yielded and a new one
    started; what is left at the end is yielded when it is not empty. *)
Fixpoint batch_sampler (K : Z) (batch : list nat) (idxs : list nat)
  : list (list nat) :=
  match idxs with
  | [] => if 0 <? len batch then [batch] else []
  | idx :: rest =>
      let batch' := batch ++ [idx] in
      if len batch' =? K then batch' :: batch_sampler K [] rest
      else batch_sampler K batch' rest
  end.

Definition default_example : Example :=
  {| input_ids := []; attn_mask := []; label := 0 |}.

(** [[dataset[i] for i in indices]]; the indices of a sampler are those of
    the dataset, so the default is never reached. *)
Definition fetch (ds : Dataset) (idxs : list nat) : list Example :=
  map (fun i => nth i ds default_example) idxs.

Definition collate (exs : list Example) : Batch :=
  {| b_input_ids := map input_ids exs;
     b_attn_mask := map attn_mask exs;
     b_labels := map label exs |}.

(** The batches one iteration over the loader yields. *)
Definition dl_iter (dl : DataLoader) : list Batch :=
  map (fun idxs => collate (fetch (dl_dataset dl) idxs))
      (batch_sampler (dl_batch_size dl) [] (sequential_sampler (dl_dataset dl))).

(** [len(data_loader)], as [BatchSampler.__len__] computes it. *)
Definition dl_len (dl : DataLoader) : Z :=
  (len (dl_dataset dl) + dl_batch_size dl - 1) / dl_batch_size dl.

Definition batch_size_of (b : Batch) : Z := len (b_labels b).

(** ** Command-line arguments (bert.py, lines 24-57) *)

Record Args : Type := {
  gpu_ids : string;
  train_batch_size : Z;
  eval_batch_size : Z;
  a_dropout_prob : float;
  h_dropout_prob : float;
  s_dropout_prob : float;
  warmup_prop : float;
  learning_rate : float;
  num_train_epochs : Z;
  seed : Z
}.

Definition default_args : Args := {|
  gpu_ids := "0,1,2,3,4,5,6,7";
  train_batch_size := 64;
  eval_batch_size := 64;
  a_dropout_prob := F64.decimal 1 1;
  h_dropout_prob := F64.decimal 1 1;
  s_dropout_prob := F64.decimal 1 1;
  warmup_prop := F64.decimal 1 1;
  learning_rate := F64.decimal 2 5;
  num_train_epochs := 8;
  seed := 42
|}.

(** [l[i]] for a non-negative [i]. *)
Definition index {A : Type} (l : list A) (i : nat) : result A :=
  match nth_error l i with
  | Some a => Ok a
  | None => Raise IndexError
  end.

(** A list comprehension whose element expression may raise. *)
Fixpoint comprehension {A B : Type} (f : A -> result B) (l : list A)
  : result (list B) :=
  match l with
  | [] => Ok []
  | a :: rest =>
      match f a with
      | Raise e => Raise e
      | Ok b =>
          match comprehension f rest with
          | Raise e => Raise e
          | Ok bs => Ok (b :: bs)
          end
      end
  end.

(** Lines 82-83: the four samplers, then the four loaders, every one of
    them with [args.train_batch_size]. *)
Definition make_data_loaders (args : Args) (datasets : list Dataset)
  : result (list DataLoader) :=
  match comprehension (fun i => index datasets i) [0; 1; 2; 3]%nat with
  | Raise e => Raise e
  | Ok _samplers =>
      comprehension
        (fun i =>
           match index datasets i with
           | Raise e => Raise e
           | Ok ds => mkDataLoader ds (train_batch_size args)
           end)
        [0; 1; 2; 3]%nat
  end.

(** Insertion sort of strings, for [sorted(result.keys())]. *)
Fixpoint insert_key (k : string) (l : list string) : list string :=
  match l with
  | [] => [k]
  | k' :: rest => if String.leb k k' then k :: l else k' :: insert_key k rest
  end.

Definition sorted_keys (l : list string) : list string :=
  fold_right insert_key [] l.

(** ** [main] (bert.py, lines 23-166) *)

Section Main.

(** The loss tensors of the model, with [.mean()] and [.item()]. *)
Variable Tensor : Type.
Variable tensor_mean : Tensor -> Tensor.
Variable tensor_item : Tensor -> float.

(** The calls [main] makes to its collaborators. *)
Inductive event : Type :=
| get_linear_schedule_with_warmup (num_warmup_steps : float)
                                  (num_training_steps : Z)
| logger_info_text (msg : string)
| logger_info_int (msg : string) (v : Z)
| logger_info (key : string) (value : float)
| tqdm_enter (total : Z) (epoch : Z)
| tqdm_exit
| model_train
| model_eval
| model_call (no_grad : bool) (batch : Batch)
| loss_mean (loss : Tensor)
| loss_backward (loss : Tensor)
| clip_grad_norm_ (max_norm : float)
| optimizer_step
| scheduler_step
| model_zero_grad
| pbar_set_postfix (loss : Tensor)
| pbar_update (n : Z)
| torch_save.

Definition trace : Type := list event.

Record ModelOutput : Type := {
  out_loss : Tensor;
  out_logits : list (list float)
}.

(** What the model returns for a batch, given every call made so far
    (parameters, gradients, optimizer and scheduler state, mode and random
    state are all functions of that history). *)
Variable model : trace -> Batch -> ModelOutput.

(** [torch.cuda.device_count()] *)
Variable n_gpu : Z.

(** Computations that append to the trace and may raise. *)
Definition M (A : Type) : Type := trace -> result (A * trace).

Definition ret {A : Type} (a : A) : M A := fun tr => Ok (a, tr).

Definition bind {A B : Type} (c : M A) (k : A -> M B) : M B :=
  fun tr =>
    match c tr with
    | Raise e => Raise e
    | Ok (a, tr') => k a tr'
    end.

Definition emit (e : event) : M unit := fun tr => Ok (tt, tr ++ [e]).

Definition lift {A : Type} (r : result A) : M A :=
  fun tr =>
    match r with
    | Raise e => Raise e
    | Ok a => Ok (a, tr)
    end.

Notation "x <- c ;; k" := (bind c (fun x => k))
  (at level 61, c at next level, right associativity).
Notation "c ;; k" := (bind c (fun _ => k))
  (at level 61, right associativity).

(** A [for] loop over [l] that updates the loop-carried variables [s]. *)
Fixpoint for_each {S X : Type} (body : S -> X -> M S) (l : list X) (s : S)
  : M S :=
  match l with
  | [] => ret s
  | x :: rest => s' <- body s x ;; for_each body rest s'
  end.

(** [model(input_ids=..., attention_mask=..., labels=...)] *)
Definition call_model (no_grad : bool) (batch : Batch) : M ModelOutput :=
  fun tr => Ok (model tr batch, tr ++ [model_call no_grad batch]).

(** [loss.mean()] *)
Definition mean (loss : Tensor) : M Tensor :=
  emit (loss_mean loss) ;; ret (tensor_mean loss).

(** Lines 111-125: the body of the loop over the batches of a loader. *)
Definition train_step (train_loss : float) (batch : Batch) : M float :=
  out <- call_model false batch ;;
  loss <- (if 1 <? n_gpu then mean (out_loss out) else ret (out_loss out)) ;;
  let train_loss := F64.add train_loss (tensor_item loss) in
  emit (loss_backward loss) ;;
  emit (clip_grad_norm_ (F64.of_Z 1)) ;;
  emit optimizer_step ;;
  emit scheduler_step ;;
  emit model_zero_grad ;;
  emit (pbar_set_postfix loss) ;;
  emit (pbar_update 1) ;;
  ret train_loss.

(** Line 110 *)
Definition train_loader (train_loss : float) (data_loader : DataLoader)
  : M float :=
  for_each train_step (dl_iter data_loader) train_loss.

(** Lines 106-125: [train_loss = 0], then the loaders [data_loaders[:3]]. *)
Definition train_epoch (data_loaders : list DataLoader)
                       (step_per_epoch ie : Z) : M float :=
  emit model_train ;;
  emit (tqdm_enter step_per_epoch (ie + 1)) ;;
  train_loss <- for_each train_loader (firstn 3 data_loaders) F64.zero ;;
  emit tqdm_exit ;;
  ret train_loss.

(** The accumulators of line 128. *)
Record EvalSums : Type := {
  eval_loss : float;
  eval_accuracy : float;
  eval_precision : float;
  eval_recall : float;
  eval_examples : Z
}.

Definition eval_sums0 : EvalSums :=
  {| eval_loss := F64.zero; eval_accuracy := F64.zero;
     eval_precision := F64.zero; eval_recall := F64.zero;
     eval_examples := 0 |}.

(** Lines 131-147: the body of the loop over the evaluation batches. *)
Definition eval_step (s : EvalSums) (batch : Batch) : M EvalSums :=
  outputs <- call_model true batch ;;
  let logits := out_logits outputs in
  let loss := out_loss outputs in
  tmp <- lift (accuracy logits (b_labels batch)) ;;
  let '(tmp_eval_accuracy, tmp_eval_precision, tmp_eval_recall) := tmp in
  loss_m <- mean loss ;;
  ret {| eval_loss := F64.add (eval_loss s) (tensor_item loss_m);
         eval_accuracy := F64.add (eval_accuracy s) tmp_eval_accuracy;
         eval_precision := F64.add (eval_precision s) tmp_eval_precision;
         eval_recall := F64.add (eval_recall s) tmp_eval_recall;
         eval_examples := eval_examples s + len (b_input_ids batch) |}.

(** The entries of the [result] dictionary of lines 154-158. *)
Record EpochResult : Type := {
  r_eval_loss : float;
  r_eval_accuracy : float;
  r_eval_precision : float;
  r_eval_recall : float;
  r_train_loss : float
}.

(** Lines 127-152: evaluation over [data_loaders[3]] and the four
    averages. *)
Definition evaluate (data_loaders : list DataLoader)
  : M (float * float * float * float) :=
  emit model_eval ;;
  eval_loader <- lift (index data_loaders 3) ;;
  s <- for_each eval_step (dl_iter eval_loader) eval_sums0 ;;
  l <- lift (py_truediv (eval_loss s) (dl_len eval_loader)) ;;
  a <- lift (py_truediv (eval_accuracy s) (dl_len eval_loader)) ;;
  p <- lift (py_truediv (eval_precision s) (dl_len eval_loader)) ;;
  r <- lift (py_truediv (eval_recall s) (dl_len eval_loader)) ;;
  ret (l, a, p, r).

Definition result_get (res : EpochResult) (key : string) : float :=
  if String.eqb key "eval_loss" then r_eval_loss res
  else if String.eqb key "eval_accuracy" then r_eval_accuracy res
  else if String.eqb key "eval_precision" then r_eval_precision res
  else if String.eqb key "eval_recall" then r_eval_recall res
  else r_train_loss res.

Definition result_keys : list string :=
  ["eval_loss"; "eval_accuracy"; "eval_precision"; "eval_recall";
   "train_loss"]%string.

(** Lines 154-162: the dictionary and its log lines, keys sorted. *)
Definition report (e : float * float * float * float)
                  (train_loss : float) (step_per_epoch : Z)
  : M EpochResult :=
  let '(l, a, p, r) := e in
  t <- lift (py_truediv train_loss step_per_epoch) ;;
  let res := {| r_eval_loss := l; r_eval_accuracy := a;
                r_eval_precision := p; r_eval_recall := r;
                r_train_loss := t |} in
  emit (logger_info_text "***** Eval results *****") ;;
  for_each (fun _ key => emit (logger_info key (result_get res key)))
           (sorted_keys result_keys) tt ;;
  ret res.

(** Lines 164-166 *)
Definition checkpoint (eval_accuracy best_accuracy : float) : M float :=
  if F64.geb eval_accuracy best_accuracy
  then emit torch_save ;; ret eval_accuracy
  else ret best_accuracy.

(** Lines 105-166: one pass of the loop over the epochs; the loop-carried
    variable is [best_accuracy]. *)
Definition epoch (data_loaders : list DataLoader) (step_per_epoch : Z)
                 (best_accuracy : float) (ie : nat) : M float :=
  train_loss <- train_epoch data_loaders step_per_epoch (Z.of_nat ie) ;;
  e <- evaluate data_loaders ;;
  res <- report e train_loss step_per_epoch ;;
  checkpoint (r_eval_accuracy res) best_accuracy.

(** Lines 105-166: [for ie in range(int(args.num_train_epochs))] *)
Definition epochs (data_loaders : list DataLoader) (step_per_epoch : Z)
                  (n : nat) (best_accuracy : float) : M float :=
  for_each (epoch data_loaders step_per_epoch) (seq 0 n) best_accuracy.

(** Line 94 *)
Definition step_per_epoch_of (data_loaders : list DataLoader) : result Z :=
  match index data_loaders 0 with
  | Raise e => Raise e
  | Ok dl0 => Ok (dl_len dl0 * 3)
  end.

(** [main], from the datasets [getQuatData] returned; its value here is
    [best_accuracy] when the loop ends. *)
Definition main (args : Args) (datasets : list Dataset) : M float :=
  data_loaders <- lift (make_data_loaders args datasets) ;;
  step_per_epoch <- lift (step_per_epoch_of data_loaders) ;;
  let total_steps := step_per_epoch * num_train_epochs args in
  emit (get_linear_schedule_with_warmup
          (F64.mul (F64.of_Z total_steps) (warmup_prop args)) total_steps) ;;
  let best_accuracy := F64.zero in
  emit (logger_info_text "***** Running training *****") ;;
  emit (logger_info_int "  Batch size = %d" (train_batch_size args)) ;;
  emit (logger_info_int "  Num steps = %d" step_per_epoch) ;;
  epochs data_loaders step_per_epoch (Z.to_nat (num_train_epochs args))
         best_accuracy.

Definition run_main (args : Args) (datasets : list Dataset)
  : result (float * trace) :=
  main args datasets [].

End Main.

Arguments ret {Tensor A} a _.
Arguments bind {Tensor A B} c k _.
Arguments emit {Tensor} e _.
Arguments lift {Tensor A} r _.
Arguments for_each {Tensor S X} body l s _.
Arguments mean {Tensor} tensor_mean loss _.
Arguments call_model {Tensor} model no_grad batch _.
Arguments train_step {Tensor} tensor_mean tensor_item model n_gpu train_loss batch _.
Arguments train_loader {Tensor} tensor_mean tensor_item model n_gpu train_loss data_loader _.
Arguments train_epoch {Tensor} tensor_mean tensor_item model n_gpu data_loaders step_per_epoch ie _.
Arguments eval_step {Tensor} tensor_mean tensor_item model s batch _.
Arguments evaluate {Tensor} tensor_mean tensor_item model data_loaders _.
Arguments report {Tensor} e train_loss step_per_epoch _.
Arguments checkpoint {Tensor} eval_accuracy best_accuracy _.
Arguments epoch {Tensor} tensor_mean tensor_item model n_gpu data_loaders step_per_epoch best_accuracy ie _.
Arguments epochs {Tensor} tensor_mean tensor_item model n_gpu data_loaders step_per_epoch n best_accuracy _.
Arguments main {Tensor} tensor_mean tensor_item model n_gpu args datasets _.
Arguments run_main {Tensor} tensor_mean tensor_item model n_gpu args datasets.
Arguments torch_save {Tensor}.
Arguments model_train {Tensor}.
Arguments model_eval {Tensor}.
Arguments optimizer_step {Tensor}.
Arguments scheduler_step {Tensor}.
Arguments model_zero_grad {Tensor}.
Arguments tqdm_exit {Tensor}.
Arguments tqdm_enter {Tensor} total epoch.
Arguments model_call {Tensor} no_grad batch.
Arguments loss_mean {Tensor} loss.
Arguments loss_backward {Tensor} loss.
Arguments clip_grad_norm_ {Tensor} max_norm.
Arguments pbar_set_postfix {Tensor} loss.
Arguments pbar_update {Tensor} n.
Arguments logger_info {Tensor} key value.
Arguments logger_info_int {Tensor} msg v.
Arguments logger_info_text {Tensor} msg.
Arguments get_linear_schedule_with_warmup {Tensor} num_warmup_steps num_training_steps.
Arguments out_loss {Tensor} m.
Arguments out_logits {Tensor} m.
Arguments Build_ModelOutput {Tensor} out_loss out_logits.

Notation "x <- c ;; k" := (bind c (fun x => k))
  (at level 61, c at next level, right associativity).
Notation "c ;; k" := (bind c (fun _ => k))
  (at level 61, right associativity).

(** ** What the properties are stated with *)

(** The number of elements of [l] that satisfy [f]. *)
Definition count_if {A : Type} (f : A -> bool) (l : list A) : Z :=
  len (filter f l).

(** Examples predicted positive, truly positive, and both. *)
Definition predicted_positive (outputs : list Z) : Z :=
  count_if (fun o => o =? 1) outputs.

Definition actual_positive (labels : list Z) : Z :=
  count_if (fun l => l =? 1) labels.

Definition true_positive (outputs labels : list Z) : Z :=
  count_if (fun p => (fst p =? 1) && (snd p =? 1)) (combine outputs labels).

(** Examples whose predicted class is the true label. *)
Definition correct (outputs labels : list Z) : Z :=
  count_if (fun p => fst p =? snd p) (combine outputs labels).

(** A class index that is 0 or 1. *)
Definition binary (c : Z) : Prop := c = 0 \/ c = 1.

(** A float that is not [nan] and whose sign bit is clear: [+0.0], a positive
    number or [+inf]. *)
Definition pos_sign (x : float) : bool :=
  match x with
  | S754_zero false | S754_infinity false | S754_finite false _ _ => true
  | _ => false
  end.

(** A positive number: finite, not zero, sign bit clear. *)
Definition finite_pos (x : float) : bool :=
  match x with S754_finite false _ _ => true | _ => false end.

(** [emits P c]: a run of [c] that returns has only appended events that
    satisfy [P]. *)
Definition emits {Tensor A : Type} (P : event Tensor -> Prop) (c : M Tensor A)
  : Prop :=
  forall tr a tr', c tr = Ok (a, tr') ->
                   exists evs, tr' = tr ++ evs /\ Forall P evs.

(** The events one training step adds to the trace [tr] for [batch], and the
    loss it backpropagates. *)
Section StepEvents.

Variable Tensor : Type.
Variable tensor_mean : Tensor -> Tensor.
Variable tensor_item : Tensor -> float.
Variable model : trace Tensor -> Batch -> ModelOutput Tensor.
Variable n_gpu : Z.

Definition step_loss (tr : trace Tensor) (batch : Batch) : Tensor :=
  let loss := out_loss (model tr batch) in
  if 1 <? n_gpu then tensor_mean loss else loss.

Definition step_events (tr : trace Tensor) (batch : Batch) : trace Tensor :=
  let loss := step_loss tr batch in
  [model_call false batch]
  ++ (if 1 <? n_gpu then [loss_mean (out_loss (model tr batch))] else [])
  ++ [loss_backward loss;
      clip_grad_norm_ (F64.of_Z 1);
      optimizer_step;
      scheduler_step;
      model_zero_grad;
      pbar_set_postfix loss;
      pbar_update 1].

(** The trace after the training steps of [batches], one after the other. *)
Fixpoint steps_trace (tr : trace Tensor) (batches : list Batch)
  : trace Tensor :=
  match batches with
  | [] => tr
  | b :: rest => steps_trace (tr ++ step_events tr b) rest
  end.

(** The scalar losses of those steps, in order. *)
Fixpoint steps_losses (tr : trace Tensor) (batches : list Batch)
  : list float :=
  match batches with
  | [] => []
  | b :: rest =>
      tensor_item (step_loss tr b) :: steps_losses (tr ++ step_events tr b) rest
  end.

(** The four values one evaluation batch contributes: the scalar loss and
    the three metrics of [accuracy]. *)
Definition eval_batch (batch : Batch)
  : M Tensor (float * float * float * float) :=
  outputs <- call_model model true batch ;;
  tmp <- lift (accuracy (out_logits outputs) (b_labels batch)) ;;
  loss_m <- mean tensor_mean (out_loss outputs) ;;
  ret (tensor_item loss_m, fst (fst tmp), snd (fst tmp), snd tmp).

(** The per-batch values of a whole fold, in order. *)
Fixpoint eval_batches (batches : list Batch)
  : M Tensor (list (float * float * float * float)) :=
  match batches with
  | [] => ret []
  | b :: rest =>
      v <- eval_batch b ;;
      vs <- eval_batches rest ;;
      ret (v :: vs)
  end.

(** One pass of the loop over the epochs, up to the checkpoint decision. *)
Definition before_checkpoint (data_loaders : list DataLoader)
                             (step_per_epoch : Z) (ie : nat)
  : M Tensor EpochResult :=
  train_loss <- train_epoch tensor_mean tensor_item model n_gpu
                            data_loaders step_per_epoch (Z.of_nat ie) ;;
  e <- evaluate tensor_mean tensor_item model data_loaders ;;
  report e train_loss step_per_epoch.

End StepEvents.

Arguments step_loss {Tensor} tensor_mean model n_gpu tr batch.
Arguments step_events {Tensor} tensor_mean model n_gpu tr batch.
Arguments steps_trace {Tensor} tensor_mean model n_gpu tr batches.
Arguments steps_losses {Tensor} tensor_mean tensor_item model n_gpu tr batches.
Arguments eval_batch {Tensor} tensor_mean tensor_item model batch _.
Arguments eval_batches {Tensor} tensor_mean tensor_item model batches _.
Arguments before_checkpoint {Tensor} tensor_mean tensor_item model n_gpu data_loaders step_per_epoch ie _.

Definition v_loss (v : float * float * float * float) : float :=
  fst (fst (fst v)).
Definition v_accuracy (v : float * float * float * float) : float :=
  snd (fst (fst v)).
Definition v_precision (v : float * float * float * float) : float :=
  snd (fst v).
Definition v_recall (v : float * float * float * float) : float := snd v.

(** The averages over the batches of a fold: each sum of per-batch values
    divided by the number of batches [n]. *)
Definition batch_averages (vals : list (float * float * float * float))
                          (n : Z) : result (float * float * float * float) :=
  match py_truediv (F64.sum (map v_loss vals)) n with
  | Raise e => Raise e
  | Ok l =>
  match py_truediv (F64.sum (map v_accuracy vals)) n with
  | Raise e => Raise e
  | Ok a =>
  match py_truediv (F64.sum (map v_precision vals)) n with
  | Raise e => Raise e
  | Ok p =>
  match py_truediv (F64.sum (map v_recall vals)) n with
  | Raise e => Raise e
  | Ok r => Ok (l, a, p, r)
  end end end end.

(** Reading a trace: whether [torch.save] is called before the next epoch
    starts. *)
Fixpoint saved_before_next {Tensor : Type} (tr : trace Tensor) : bool :=
  match tr with
  | [] => false
  | torch_save :: _ => true
  | model_train :: _ => false
  | _ :: rest => saved_before_next rest
  end.

(** The epochs' logged [eval_accuracy], each with whether that epoch
    saved. *)
Fixpoint epoch_log {Tensor : Type} (tr : trace Tensor) : list (float * bool) :=
  match tr with
  | [] => []
  | logger_info key v :: rest =>
      if String.eqb key "eval_accuracy"
      then (v, saved_before_next rest) :: epoch_log rest
      else epoch_log rest
  | _ :: rest => epoch_log rest
  end.

(** The value logged under [key], every time it was. *)
Fixpoint logged {Tensor : Type} (key : string) (tr : trace Tensor)
  : list float :=
  match tr with
  | [] => []
  | logger_info k v :: rest =>
      if String.eqb k key then v :: logged key rest else logged key rest
  | _ :: rest => logged key rest
  end.

(** The scalar losses of the training steps, read off the progress bar. *)
Fixpoint step_losses_of {Tensor : Type} (item : Tensor -> float)
                        (tr : trace Tensor) : list float :=
  match tr with
  | [] => []
  | pbar_set_postfix loss :: rest => item loss :: step_losses_of item rest
  | _ :: rest => step_losses_of item rest
  end.

(** The batches given to the model in evaluation. *)
Fixpoint eval_batches_of {Tensor : Type} (tr : trace Tensor) : list Batch :=
  match tr with
  | [] => []
  | model_call true b :: rest => b :: eval_batches_of rest
  | _ :: rest => eval_batches_of rest
  end.

Definition is_save {Tensor : Type} (e : event Tensor) : bool :=
  match e with torch_save => true | _ => false end.

Definition is_model_train {Tensor : Type} (e : event Tensor) : bool :=
  match e with model_train => true | _ => false end.

(** ** Concrete runs *)

(** A model whose loss is a scalar already. *)
Definition scalar_mean (t : float) : float := t.
Definition scalar_item (t : float) : float := t.

Definition example_of (l : Z) : Example :=
  {| input_ids := [101; 102]; attn_mask := [1; 1]; label := l |}.

(** The scores of a two-class row that predicts class [c]. *)
Definition two_class_row (c : Z) : list float :=
  if c =? 1 then [F64.of_Z 0; F64.of_Z 1] else [F64.of_Z 1; F64.of_Z 0].

(** A model that predicts every label and whose loss is always 1.0. *)
Definition perfect_model (tr : trace float) (b : Batch) : ModelOutput float :=
  {| out_loss := F64.of_Z 1; out_logits := map two_class_row (b_labels b) |}.

Definition args_of (train_bs eval_bs epochs : Z) : Args := {|
  gpu_ids := gpu_ids default_args;
  train_batch_size := train_bs;
  eval_batch_size := eval_bs;
  a_dropout_prob := a_dropout_prob default_args;
  h_dropout_prob := h_dropout_prob default_args;
  s_dropout_prob := s_dropout_prob default_args;
  warmup_prop := warmup_prop default_args;
  learning_rate := learning_rate default_args;
  num_train_epochs := epochs;
  seed := seed default_args
|}.

(** Training folds of 1, 2 and 2 examples, an evaluation fold of 1. *)
Definition unequal_folds : list Dataset :=
  [[example_of 1];
   [example_of 1; example_of 0];
   [example_of 0; example_of 1];
   [example_of 1]].

(** Four folds of four examples each. *)
Definition folds_of_four : list Dataset :=
  repeat [example_of 1; example_of 0; example_of 1; example_of 0] 4.

(** The number of epochs whose evaluation has started. *)
Definition evals_started (tr : trace float) : nat :=
  List.length (filter (fun e => match e with model_eval => true | _ => false end) tr).

(** A model that, in the evaluation of epoch [e], predicts class 1 for the
    first [k_e] examples of the batch and class 0 for the others, with
    [k] = 10, 12, 11, 12, 14 over the epochs. *)
Definition drifting_model (tr : trace float) (b : Batch) : ModelOutput float :=
  let k := nth (evals_started tr - 1) [10; 12; 11; 12; 14]%nat 0%nat in
  {| out_loss := F64.of_Z 1;
     out_logits :=
       map (fun i => two_class_row (if (i <? k)%nat then 1 else 0))
           (seq 0 (List.length (b_labels b))) |}.

(** Three training folds of one example, an evaluation fold of twenty
    examples of class 1. *)
Definition folds_eval_twenty : list Dataset :=
  [[example_of 1]; [example_of 0]; [example_of 1]; repeat (example_of 1) 20].

(** A model that predicts class 1 except for the example whose first token
    is 7. *)
Definition model_wrong_on_7 (tr : trace float) (b : Batch) : ModelOutput float :=
  {| out_loss := F64.of_Z 1;
     out_logits :=
       map (fun ids => two_class_row (match ids with 7 :: _ => 0 | _ => 1 end))
           (b_input_ids b) |}.

(** An evaluation fold of three examples of class 1, the second one with
    first token 7. *)
Definition folds_eval_three : list Dataset :=
  [[example_of 1]; [example_of 0]; [example_of 1];
   [example_of 1;
    {| input_ids := [7; 102]; attn_mask := [1; 1]; label := 1 |};
    example_of 1]].

(** ** More readings of a trace *)

(** The number of events of [tr] that satisfy [f]. *)
Definition count_events {Tensor : Type} (f : event Tensor -> bool)
                        (tr : trace Tensor) : nat :=
  List.length (filter f tr).

Definition is_optimizer_step {Tensor : Type} (e : event Tensor) : bool :=
  match e with optimizer_step => true | _ => false end.

Definition is_scheduler_step {Tensor : Type} (e : event Tensor) : bool :=
  match e with scheduler_step => true | _ => false end.

Definition is_backward {Tensor : Type} (e : event Tensor) : bool :=
  match e with loss_backward _ => true | _ => false end.

(** The batches given to the model with gradients enabled. *)
Fixpoint train_batches_of {Tensor : Type} (tr : trace Tensor) : list Batch :=
  match tr with
  | [] => []
  | model_call false b :: rest => b :: train_batches_of rest
  | _ :: rest => train_batches_of rest
  end.

(** The calls evaluation makes after [model.eval()]: the model under
    [no_grad] and [loss.mean()]. *)
Definition inference_call {Tensor : Type} (e : event Tensor) : bool :=
  match e with
  | model_call true _ | loss_mean _ => true
  | _ => false
  end.

(** Events that are neither a log line, nor [torch.save], nor
    [model.train()]. *)
Definition silent {Tensor : Type} (e : event Tensor) : bool :=
  match e with
  | logger_info _ _ | logger_info_text _ | logger_info_int _ _
  | torch_save | model_train => false
  | _ => true
  end.

(** The keys of the values logged, in order. *)
Fixpoint log_keys {Tensor : Type} (tr : trace Tensor) : list string :=
  match tr with
  | [] => []
  | logger_info key _ :: rest => key :: log_keys rest
  | _ :: rest => log_keys rest
  end.

(** The checkpoint rule of lines 164-166 run over a list of accuracies:
    each accuracy with whether it saves, and the best accuracy at the
    end. *)
Fixpoint checkpoint_policy (best : float) (accs : list float)
  : list (float * bool) :=
  match accs with
  | [] => []
  | a :: rest =>
      (a, F64.geb a best)
        :: checkpoint_policy (if F64.geb a best then a else best) rest
  end.

Fixpoint policy_best (best : float) (accs : list float) : float :=
  match accs with
  | [] => best
  | a :: rest => policy_best (if F64.geb a best then a else best) rest
  end.

(** What [main] calls before the first epoch. *)
Definition prelude {Tensor : Type} (args : Args) (step_per_epoch : Z)
  : trace Tensor :=
  [get_linear_schedule_with_warmup
     (F64.mul (F64.of_Z (step_per_epoch * num_train_epochs args))
              (warmup_prop args))
     (step_per_epoch * num_train_epochs args);
   logger_info_text "***** Running training *****";
   logger_info_int "  Batch size = %d" (train_batch_size args);
   logger_info_int "  Num steps = %d" step_per_epoch].

(** Four folds of two examples, the first one empty. *)
Definition folds_first_empty : list Dataset :=
  [[]; [example_of 1; example_of 0]; [example_of 0; example_of 1];
   [example_of 1; example_of 0]].

(** Four folds of two examples, the evaluation fold empty. *)
Definition folds_eval_empty : list Dataset :=
  [[example_of 1; example_of 0]; [example_of 1; example_of 0];
   [example_of 0; example_of 1]; []].

(** The log lines of one epoch: the header, then the five results in the
    order of their keys. *)
Definition report_events {Tensor : Type} (res : EpochResult) : trace Tensor :=
  [logger_info_text "***** Eval results *****";
   logger_info "eval_accuracy" (r_eval_accuracy res);
   logger_info "eval_loss" (r_eval_loss res);
   logger_info "eval_precision" (r_eval_precision res);
   logger_info "eval_recall" (r_eval_recall res);
   logger_info "train_loss" (r_train_loss res)].

(** The calls of one epoch: training steps [evsT] inside the progress bar,
    evaluation calls [evsE], the log lines of [res], and [torch.save] when
    [saved]. *)
Definition epoch_events {Tensor : Type} (step_per_epoch : Z) (ie : nat)
           (evsT evsE : trace Tensor) (res : EpochResult) (saved : bool)
  : trace Tensor :=
  [model_train; tqdm_enter step_per_epoch (Z.of_nat ie + 1)]
  ++ evsT ++ [tqdm_exit] ++ [model_eval] ++ evsE
  ++ report_events res
  ++ (if saved then [torch_save] else []).

(** [run_shape batches eval_batches n best evs best']: [evs] is the trace
    of [n] epochs one after the other, each training on [batches] with one
    backward pass, optimizer step and scheduler step per batch, evaluating
    on [eval_batches] without gradients, and saving exactly when its
    accuracy is not below the best so far, which goes from [best] to
    [best']. *)
Inductive run_shape {Tensor : Type} (batches eval_batches : list Batch)
  : nat -> float -> trace Tensor -> float -> Prop :=
| run_done (best : float) : run_shape batches eval_batches 0 best [] best
| run_epoch (n : nat) (best best' : float) (step_per_epoch : Z) (ie : nat)
            (evsT evsE rest : trace Tensor) (res : EpochResult) :
    train_batches_of evsT = batches ->
    eval_batches_of evsT = [] ->
    count_events is_backward evsT = List.length batches ->
    count_events is_optimizer_step evsT = List.length batches ->
    count_events is_scheduler_step evsT = List.length batches ->
    Forall (fun e => silent e = true) evsT ->
    Forall (fun e => inference_call e = true) evsE ->
    eval_batches_of evsE = eval_batches ->
    run_shape batches eval_batches n
              (if F64.geb (r_eval_accuracy res) best
               then r_eval_accuracy res else best)
              rest best' ->
    run_shape batches eval_batches (S n) best
              (epoch_events step_per_epoch ie evsT evsE res
                            (F64.geb (r_eval_accuracy res) best) ++ rest)
              best'.

(** * Properties *)

(** ** Lists and counts *)

Lemma len_nil {A : Type} : len (@nil A) = 0.
Proof. reflexivity. Qed.

Lemma len_cons {A : Type} (a : A) (l : list A) : len (a :: l) = len l + 1.
Proof. unfold len. cbn [List.length]. lia. Qed.

Lemma len_app {A : Type} (l1 l2 : list A) : len (l1 ++ l2) = len l1 + len l2.
Proof. unfold len. rewrite length_app. lia. Qed.

Lemma len_nonneg {A : Type} (l : list A) : 0 <= len l.
Proof. unfold len. lia. Qed.

Ltac len_nil := change (@len nat []) with 0 in *.

Lemma len_map {A B : Type} (f : A -> B) (l : list A) : len (map f l) = len l.
Proof. unfold len. now rewrite length_map. Qed.

(** ** The batch sampler *)


Lemma batch_sampler_count (K : Z) (idxs batch : list nat) :
  0 < K -> len batch < K ->
  len (batch_sampler K batch idxs) = (len batch + len idxs + K - 1) / K.
Proof.
  intros HK. revert batch.
  induction idxs as [|i rest IH]; intros batch Hb; cbn [batch_sampler].
  - len_nil. rewrite Z.add_0_r. pose proof (len_nonneg batch).
    destruct (0 <? len batch) eqn:E.
    + apply Z.ltb_lt in E. rewrite len_cons. change (@len (list nat) []) with 0.
      apply Z.div_unique with (r := len batch - 1); lia.
    + apply Z.ltb_ge in E. change (@len (list nat) []) with 0.
      apply Z.div_unique with (r := len batch + K - 1); lia.
  - rewrite len_cons. destruct (len (batch ++ [i]) =? K) eqn:E.
    + apply Z.eqb_eq in E. rewrite len_app, len_cons in E. len_nil.
      rewrite len_cons, IH by (len_nil; lia). len_nil.
      replace (len batch + (len rest + 1) + K - 1) with ((0 + len rest + K - 1) + 1 * K) by lia.
      rewrite Z.div_add by lia. lia.
    + apply Z.eqb_neq in E. rewrite len_app, len_cons in E. len_nil.
      rewrite IH by (rewrite len_app, len_cons; len_nil; lia).
      rewrite len_app, len_cons. len_nil. f_equal. lia.
Qed.


Lemma batch_sampler_size (K : Z) (idxs batch b : list nat) :
  In b (batch_sampler K batch idxs) -> len b <= len batch + len idxs.
Proof.
  revert batch. induction idxs as [|i rest IH]; intros batch; cbn [batch_sampler].
  - destruct (0 <? len batch); cbn [In]; [|tauto].
    intros [<-|[]]. len_nil. lia.
  - rewrite len_cons. destruct (len (batch ++ [i]) =? K); cbn [In].
    + intros [<-|Hin].
      * rewrite len_app, len_cons. len_nil. pose proof (len_nonneg rest). lia.
      * apply IH in Hin. len_nil. pose proof (len_nonneg batch). lia.
    + intros Hin. apply IH in Hin. rewrite len_app, len_cons in Hin. len_nil. lia.
Qed.





Lemma dl_iter_count (dl : DataLoader) :
  0 < dl_batch_size dl -> len (dl_iter dl) = dl_len dl.
Proof.
  intros HK. unfold dl_iter, dl_len. rewrite len_map.
  rewrite batch_sampler_count by (len_nil; lia).
  len_nil. unfold sequential_sampler, len. rewrite length_seq. f_equal; lia.
Qed.



Lemma dl_iter_batch_bound (dl : DataLoader) :
  Forall (fun b => len (b_labels b) <= len (dl_dataset dl)) (dl_iter dl).
Proof.
  apply Forall_forall. intros b Hb. unfold dl_iter in Hb.
  apply in_map_iff in Hb. destruct Hb as (idxs & <- & Hin).
  apply batch_sampler_size in Hin. unfold collate, fetch. cbn [b_labels].
  rewrite !len_map. len_nil.
  unfold sequential_sampler, len in *. rewrite length_seq in Hin. exact Hin.
Qed.

Lemma dl_len_bounds (dl : DataLoader) :
  0 < dl_batch_size dl -> 0 <= dl_len dl <= len (dl_dataset dl).
Proof.
  intros HK. unfold dl_len. pose proof (len_nonneg (dl_dataset dl)) as HN.
  split.
  - apply Z.div_pos; lia.
  - destruct (Z.eq_dec (len (dl_dataset dl)) 0) as [E|E].
    + rewrite E, Z.div_small; lia.
    + apply Z.div_le_upper_bound; [lia|]. nia.
Qed.

(** What lines 82-83 build when they do not raise: four loaders, over the
    first four datasets, all with [args.train_batch_size], which is
    positive. *)
Lemma make_data_loaders_ok (args : Args) (datasets : list Dataset)
      (data_loaders : list DataLoader) :
  make_data_loaders args datasets = Ok data_loaders ->
  exists d0 d1 d2 d3 rest,
    datasets = d0 :: d1 :: d2 :: d3 :: rest
    /\ 0 < train_batch_size args
    /\ data_loaders
       = map (fun ds => {| dl_dataset := ds;
                           dl_batch_size := train_batch_size args |})
             [d0; d1; d2; d3].
Proof.
  unfold make_data_loaders.
  destruct datasets as [|d0 [|d1 [|d2 [|d3 rest]]]]; cbn; try discriminate.
  unfold mkDataLoader. destruct (train_batch_size args <=? 0) eqn:E;
    cbn; [discriminate|].
  intros H. injection H as <-. apply Z.leb_gt in E.
  exists d0, d1, d2, d3, rest. auto.
Qed.

Lemma batch_sampler_sizes (K : Z) (idxs batch : list nat) :
  0 < K -> len batch < K ->
  Forall (fun b => 1 <= len b <= K) (batch_sampler K batch idxs).
Proof.
  intros HK. revert batch.
  induction idxs as [|i rest IH]; intros batch Hb; cbn [batch_sampler].
  - destruct (0 <? len batch) eqn:E; constructor; [|constructor].
    apply Z.ltb_lt in E. lia.
  - pose proof (len_nonneg batch) as Hn.
    destruct (len (batch ++ [i]) =? K) eqn:E.
    + apply Z.eqb_eq in E. constructor; [lia|]. apply IH. len_nil. lia.
    + apply Z.eqb_neq in E. apply IH.
      rewrite len_app, len_cons in *. len_nil. lia.
Qed.

Lemma dl_iter_batch_shapes (dl : DataLoader) :
  0 < dl_batch_size dl ->
  Forall (fun b => 1 <= batch_size_of b <= dl_batch_size dl
                   /\ len (b_input_ids b) = batch_size_of b
                   /\ len (b_attn_mask b) = batch_size_of b)
         (dl_iter dl).
Proof.
  intros HK. unfold dl_iter. apply Forall_map.
  pose proof (batch_sampler_sizes (dl_batch_size dl)
                (sequential_sampler (dl_dataset dl)) [] HK) as H.
  eapply Forall_impl; [|apply H; len_nil; exact HK].
  intros idxs Hi. unfold batch_size_of, collate, fetch.
  cbn [b_labels b_input_ids b_attn_mask]. rewrite !len_map. auto.
Qed.

(** Every batch of every loader that lines 82-83 build, the evaluation
    loader included, holds at least one and at most [train_batch_size]
    examples, and its three tensors have that many rows. *)
Theorem loaders_batches_within_train_batch_size
        (args : Args) (datasets : list Dataset)
        (data_loaders : list DataLoader) :
  make_data_loaders args datasets = Ok data_loaders ->
  List.length data_loaders = 4%nat
  /\ Forall
       (fun dl =>
          Forall (fun b => 1 <= batch_size_of b <= train_batch_size args
                           /\ len (b_input_ids b) = batch_size_of b
                           /\ len (b_attn_mask b) = batch_size_of b)
                 (dl_iter dl))
       data_loaders.
Proof.
  intros H.
  destruct (make_data_loaders_ok _ _ _ H)
    as (d0 & d1 & d2 & d3 & rest & -> & HK & ->).
  split; [reflexivity|].
  apply Forall_map. apply Forall_forall. intros ds _.
  apply (dl_iter_batch_shapes
           {| dl_dataset := ds; dl_batch_size := train_batch_size args |}).
  exact HK.
Qed.

Lemma loaders_batches_within_train_batch_size_witness :
  exists data_loaders,
    make_data_loaders (args_of 4 2 1) folds_of_four = Ok data_loaders
    /\ List.length data_loaders = 4%nat
    /\ Forall
         (fun dl =>
            Forall (fun b => 1 <= batch_size_of b <= 4
                             /\ len (b_input_ids b) = batch_size_of b
                             /\ len (b_attn_mask b) = batch_size_of b)
                   (dl_iter dl))
         data_loaders.
Proof.
  eexists. split; [vm_compute; reflexivity|].
  apply (loaders_batches_within_train_batch_size (args_of 4 2 1) folds_of_four).
  vm_compute. reflexivity.
Defined.

(** ** Integer sums *)

Lemma wrap64_small (z : Z) : - 2 ^ 63 <= z < 2 ^ 63 -> wrap64 z = z.
Proof.
  intros H. unfold wrap64. rewrite Z.mod_small; lia.
Qed.

Lemma count_if_nil {A : Type} (f : A -> bool) : count_if f [] = 0.
Proof. reflexivity. Qed.

Lemma count_if_cons {A : Type} (f : A -> bool) (a : A) (l : list A) :
  count_if f (a :: l) = Z.b2z (f a) + count_if f l.
Proof.
  unfold count_if. cbn [filter]. destruct (f a); cbn [Z.b2z].
  - rewrite len_cons. lia.
  - lia.
Qed.

Lemma count_if_bounds {A : Type} (f : A -> bool) (l : list A) :
  0 <= count_if f l <= len l.
Proof.
  induction l as [|a l IH].
  - rewrite count_if_nil. change (@len A []) with 0. lia.
  - rewrite count_if_cons, len_cons. destruct (f a); cbn [Z.b2z]; lia.
Qed.

Lemma count_if_map {A B : Type} (f : B -> bool) (g : A -> B) (l : list A) :
  count_if f (map g l) = count_if (fun a => f (g a)) l.
Proof.
  induction l as [|a l IH]; [reflexivity|].
  cbn [map]. rewrite !count_if_cons. now rewrite IH.
Qed.

Lemma np_sum_binary_from (l : list Z) (acc : Z) :
  Forall binary l -> 0 <= acc -> acc + len l < 2 ^ 63 ->
  fold_left (fun a x => wrap64 (a + x)) l acc
  = acc + count_if (fun x => x =? 1) l.
Proof.
  intros Hl. revert acc. induction Hl as [|x l Hx Hl IH]; intros acc H0 Hb.
  - cbn [fold_left]. rewrite count_if_nil. lia.
  - cbn [fold_left]. rewrite count_if_cons, len_cons in *.
    pose proof (len_nonneg l).
    assert (Hx' : x = Z.b2z (x =? 1)) by (destruct Hx; subst; reflexivity).
    assert (0 <= Z.b2z (x =? 1) <= 1) by (destruct (x =? 1); cbn; lia).
    rewrite wrap64_small by lia.
    rewrite IH by lia. lia.
Qed.

Lemma np_sum_binary (l : list Z) :
  Forall binary l -> len l < 2 ^ 63 ->
  np_sum l = count_if (fun x => x =? 1) l.
Proof.
  intros Hl Hb. unfold np_sum. rewrite np_sum_binary_from; auto; lia.
Qed.

Lemma binary_b2z (bs : list bool) : Forall binary (map Z.b2z bs).
Proof.
  induction bs as [|b bs IH]; constructor; auto.
  destruct b; [right|left]; reflexivity.
Qed.

Lemma np_sum_bools (bs : list bool) :
  len bs < 2 ^ 63 -> np_sum (map Z.b2z bs) = count_if (fun b => b) bs.
Proof.
  intros Hb. rewrite np_sum_binary.
  - rewrite count_if_map. unfold count_if. f_equal. apply filter_ext.
    intros []; reflexivity.
  - apply binary_b2z.
  - now rewrite len_map.
Qed.

Lemma py_sum_from (l : list Z) (acc : Z) :
  fold_left Z.add l acc = acc + fold_left Z.add l 0.
Proof.
  revert acc. induction l as [|x l IH]; intros acc; cbn [fold_left].
  - lia.
  - rewrite IH, (IH (0 + x)). lia.
Qed.

(** ** [accuracy] on shapes that agree *)

Lemma len_eq_length {A B : Type} (l : list A) (l' : list B) :
  len l = len l' -> List.length l = List.length l'.
Proof. unfold len. lia. Qed.

Lemma sum1_terms_same_length (outputs labels : list Z) :
  List.length labels = List.length outputs ->
  exists terms, sum1_terms outputs labels = Ok terms
                /\ py_sum terms = true_positive outputs labels.
Proof.
  revert labels. induction outputs as [|o os IH]; intros [|l ls] Hlen;
    try discriminate.
  - exists []. split; reflexivity.
  - cbn [List.length] in Hlen. injection Hlen as Hlen.
    destruct (IH ls Hlen) as (ts & Hts & Hsum).
    cbn [sum1_terms]. rewrite Hts. eexists. split; [reflexivity|].
    unfold py_sum, true_positive in *. cbn [fold_left combine].
    rewrite py_sum_from, Hsum, count_if_cons. cbn [fst snd].
    destruct (l =? 1) eqn:El.
    + apply Z.eqb_eq in El. subst l. rewrite andb_true_r. destruct (o =? 1); reflexivity.
    + rewrite !andb_false_r. reflexivity.
Qed.

Lemma np_equal_same_length (outputs labels : list Z) :
  List.length labels = List.length outputs ->
  np_equal outputs labels
  = Ok (map (fun p => fst p =? snd p) (combine outputs labels)).
Proof.
  intros Hlen. unfold np_equal, len. rewrite Hlen, Z.eqb_refl. reflexivity.
Qed.

Lemma len_combine_same {A B : Type} (l : list A) (l' : list B) :
  List.length l' = List.length l -> len (combine l l') = len l.
Proof.
  intros H. unfold len. rewrite length_combine, H. lia.
Qed.

(** What [accuracy] returns when the predicted classes and the labels are
    all 0 or 1 and there is one label per row. *)
Lemma accuracy_binary (logits : list (list float)) (labels outputs : list Z) :
  np_argmax_axis1 logits = Ok outputs ->
  len labels = len outputs ->
  Forall binary outputs ->
  Forall binary labels ->
  len outputs < 2 ^ 63 ->
  accuracy logits labels
  = if len outputs =? 0 then Raise ZeroDivisionError
    else Ok (np_true_divide (correct outputs labels) (len outputs),
             np_true_divide (true_positive outputs labels)
                            (predicted_positive outputs),
             np_true_divide (true_positive outputs labels)
                            (actual_positive labels)).
Proof.
  intros Harg Hlen Ho Hl Hb.
  pose proof (len_eq_length _ _ Hlen) as Hlen'.
  unfold accuracy. rewrite Harg.
  destruct (sum1_terms_same_length outputs labels Hlen') as (ts & Hts & Hsum).
  rewrite Hts, np_equal_same_length by assumption.
  destruct (len outputs =? 0); [reflexivity|].
  rewrite Hsum.
  rewrite np_sum_bools by (rewrite len_map, len_combine_same; assumption).
  rewrite (np_sum_binary outputs) by assumption.
  rewrite (np_sum_binary labels) by (try assumption; lia).
  rewrite count_if_map. reflexivity.
Qed.

Lemma true_positive_bounds (outputs labels : list Z) :
  0 <= true_positive outputs labels
  /\ true_positive outputs labels <= predicted_positive outputs
  /\ true_positive outputs labels <= actual_positive labels.
Proof.
  unfold true_positive, predicted_positive, actual_positive.
  revert labels. induction outputs as [|o os IH]; intros labels.
  - cbn [combine]. rewrite !count_if_nil.
    pose proof (count_if_bounds (fun l => l =? 1) labels). lia.
  - destruct labels as [|l ls].
    + cbn [combine]. rewrite !count_if_nil.
      pose proof (count_if_bounds (fun o => o =? 1) (o :: os)). lia.
    + cbn [combine]. rewrite !count_if_cons. cbn [fst snd].
      specialize (IH ls).
      destruct (o =? 1), (l =? 1); cbn [andb Z.b2z]; lia.
Qed.

(** ** binary64: comparison *)

Lemma leb_refl (x : float) : F64.is_nan x = false -> F64.leb x x = true.
Proof.
  unfold F64.leb, SFleb. destruct x as [s|s| |s m e]; cbn; intros H;
    try discriminate; try (destruct s; reflexivity).
  destruct s; rewrite Z.compare_refl, Pos.compare_cont_refl; reflexivity.
Qed.

Lemma leb_not_nan (x y : float) :
  F64.leb x y = true -> F64.is_nan x = false /\ F64.is_nan y = false.
Proof.
  destruct x as [ | | | ], y as [ | | | ]; cbn; intros H; try discriminate; auto.
Qed.

Lemma compare_cont_Eq (m1 m2 : positive) :
  Pos.compare_cont Eq m1 m2 = (m1 ?= m2)%positive.
Proof. reflexivity. Qed.

Ltac order_cases :=
  repeat match goal with
  | H : context [Z.compare ?a ?b] |- _ =>
      destruct (Z.compare_spec a b); cbn in H; try discriminate
  | H : context [Pos.compare ?a ?b] |- _ =>
      destruct (Pos.compare_spec a b); cbn in H; try discriminate
  | |- context [Z.compare ?a ?b] =>
      destruct (Z.compare_spec a b); cbn
  | |- context [Pos.compare ?a ?b] =>
      destruct (Pos.compare_spec a b); cbn
  end.

Lemma leb_trans (x y z : float) :
  F64.leb x y = true -> F64.leb y z = true -> F64.leb x z = true.
Proof.
  unfold F64.leb, SFleb.
  destruct x as [sx|sx| |sx mx ex], y as [sy|sy| |sy my ey],
           z as [sz|sz| |sz mz ez];
    cbn [SFcompare]; intros Hxy Hyz; try discriminate; try reflexivity;
    repeat match goal with s : bool |- _ => destruct s end;
    try discriminate; try reflexivity;
    rewrite ?compare_cont_Eq in *; order_cases; subst; try reflexivity; try lia.
Qed.

Lemma pos_sign_geb_zero (x : float) :
  pos_sign x = true -> F64.geb x F64.zero = true.
Proof.
  destruct x as [[]|[]| |[] m e]; cbn; intros H; try discriminate; reflexivity.
Qed.

Lemma pos_sign_not_nan (x : float) : pos_sign x = true -> F64.is_nan x = false.
Proof.
  destruct x as [[]|[]| |[] m e]; cbn; intros H; try discriminate; reflexivity.
Qed.

(** ** binary64: rounding keeps a mantissa that is not negative *)

Lemma iter_pos_invariant {A : Type} (P : A -> Prop) (f : A -> A) :
  (forall x, P x -> P (f x)) -> forall p x, P x -> P (iter_pos f p x).
Proof.
  intros Hf. induction p as [p IH|p IH|]; intros x Hx; cbn [iter_pos]; auto.
Qed.

Lemma shr_1_nonneg (mrs : shr_record) : 0 <= shr_m mrs -> 0 <= shr_m (shr_1 mrs).
Proof.
  destruct mrs as [m r s]. cbn [shr_m shr_1].
  destruct m as [|[p|p|]|[p|p|]]; cbn [shr_m]; lia.
Qed.

Lemma shr_nonneg (mrs : shr_record) (e n : Z) :
  0 <= shr_m mrs -> 0 <= shr_m (fst (shr mrs e n)).
Proof.
  intros H. unfold shr. destruct n; cbn [fst]; auto.
  apply (iter_pos_invariant (fun x => 0 <= shr_m x)); auto using shr_1_nonneg.
Qed.

Lemma shr_record_of_loc_m (m : Z) (l : location) :
  shr_m (shr_record_of_loc m l) = m.
Proof. destruct l as [|[]]; reflexivity. Qed.

Lemma round_nearest_even_range (mx : Z) (lx : location) :
  mx <= round_nearest_even mx lx <= mx + 1.
Proof.
  unfold round_nearest_even. destruct lx as [|[]]; try lia.
  destruct (Z.even mx); lia.
Qed.

Lemma binary_round_aux_pos_sign (mx ex : Z) (lx : location) :
  0 <= mx ->
  pos_sign (binary_round_aux F64.prec F64.emax false mx ex lx) = true.
Proof.
  intros Hm. unfold binary_round_aux, shr_fexp.
  destruct (shr (shr_record_of_loc mx lx) ex _) as [mrs' e'] eqn:E1.
  assert (H1 : 0 <= shr_m mrs').
  { change mrs' with (fst (mrs', e')). rewrite <- E1. apply shr_nonneg.
    now rewrite shr_record_of_loc_m. }
  destruct (shr (shr_record_of_loc _ loc_Exact) e' _) as [mrs'' e''] eqn:E2.
  assert (H2 : 0 <= shr_m mrs'').
  { change mrs'' with (fst (mrs'', e'')). rewrite <- E2. apply shr_nonneg.
    rewrite shr_record_of_loc_m.
    pose proof (round_nearest_even_range (shr_m mrs') (loc_of_shr_record mrs')). lia. }
  destruct (shr_m mrs''); [reflexivity| |lia].
  destruct (_ <=? _); reflexivity.
Qed.

Lemma of_Z_pos_sign (z : Z) : 0 <= z -> pos_sign (F64.of_Z z) = true.
Proof.
  intros Hz. unfold F64.of_Z, binary_normalize. destruct z as [|p|p]; [reflexivity| |lia].
  unfold binary_round. destruct (shl_align _ _ _) as [mz ez].
  apply binary_round_aux_pos_sign. lia.
Qed.

Lemma add_pos_sign (x y : float) :
  pos_sign x = true -> pos_sign y = true -> pos_sign (F64.add x y) = true.
Proof.
  destruct x as [[]|[]| |[] mx ex]; cbn [pos_sign]; try discriminate; intros _;
    destruct y as [[]|[]| |[] my ey]; cbn [pos_sign]; try discriminate; intros _;
    try reflexivity.
  unfold F64.add, SFadd. cbn [cond_Zopp].
  unfold binary_normalize.
  destruct (shl_align mx ex _) as [mx' ex'], (shl_align my ey _) as [my' ey'].
  cbn [fst]. change (Z.pos mx' + Z.pos my') with (Z.pos (mx' + my')).
  unfold binary_round. destruct (shl_align _ _ _) as [mz ez].
  apply binary_round_aux_pos_sign. lia.
Qed.

Lemma sum_pos_sign_from (l : list float) (acc : float) :
  pos_sign acc = true -> Forall (fun x => pos_sign x = true) l ->
  pos_sign (fold_left F64.add l acc) = true.
Proof.
  intros Ha Hl. revert acc Ha. induction Hl as [|x l Hx Hl IH]; intros acc Ha.
  - exact Ha.
  - cbn [fold_left]. apply IH. now apply add_pos_sign.
Qed.

Lemma div_pos_sign (x y : float) :
  pos_sign x = true -> finite_pos y = true -> pos_sign (F64.div x y) = true.
Proof.
  destruct y as [ | | |[] my ey]; cbn [finite_pos]; try discriminate. intros Hx _.
  destruct x as [[]|[]| |[] mx ex]; cbn [pos_sign] in Hx; try discriminate;
    try reflexivity.
  unfold F64.div, SFdiv. cbn [xorb].
  destruct (SFdiv_core_binary _ _ _ _ _ _) as [[mz ez] lz] eqn:E.
  apply binary_round_aux_pos_sign.
  unfold SFdiv_core_binary in E.
  destruct (Z.div_eucl _ (Z.pos my)) as [q r] eqn:Ed in E.
  injection E as <- _ _.
  match type of Ed with Z.div_eucl ?a ?b = _ =>
    assert (Ha : 0 <= a);
    [| pose proof (Z.div_pos a b Ha ltac:(lia)) as Hq; unfold Z.div in Hq; rewrite Ed in Hq; exact Hq]
  end.
  destruct (_ - _ - _); try lia. apply Z.shiftl_nonneg. lia.
Qed.

Lemma leb_total (x y : float) :
  F64.is_nan x = false -> F64.is_nan y = false ->
  F64.leb x y = false -> F64.leb y x = true.
Proof.
  unfold F64.leb, SFleb.
  destruct x as [sx|sx| |sx mx ex], y as [sy|sy| |sy my ey];
    cbn [SFcompare F64.is_nan]; intros Hx Hy H; try discriminate;
    repeat match goal with s : bool |- _ => destruct s end;
    try discriminate; try reflexivity;
    rewrite ?compare_cont_Eq in *;
    rewrite (Z.compare_antisym ex ey), ?(Pos.compare_antisym mx my);
    destruct (Z.compare ex ey); cbn in *; try discriminate; try reflexivity;
    destruct (Pos.compare mx my); cbn in *; try discriminate; reflexivity.
Qed.

(** ** The checkpoint rule on a list of accuracies *)

Lemma policy_best_not_nan (accs : list float) (best : float) :
  F64.is_nan best = false -> F64.is_nan (policy_best best accs) = false.
Proof.
  revert best. induction accs as [|a accs IH]; intros best Hn; [exact Hn|].
  cbn [policy_best]. apply IH. destruct (F64.geb a best) eqn:E; [|exact Hn].
  apply (leb_not_nan _ _ E).
Qed.

Lemma policy_best_ge_start (accs : list float) (best : float) :
  F64.is_nan best = false -> F64.geb (policy_best best accs) best = true.
Proof.
  revert best. induction accs as [|a accs IH]; intros best Hn; cbn [policy_best].
  - now apply leb_refl.
  - destruct (F64.geb a best) eqn:E.
    + unfold F64.geb in *. eapply leb_trans; [exact E|].
      apply IH. apply (leb_not_nan _ _ E).
    + now apply IH.
Qed.

Lemma policy_best_ge (accs : list float) (best a : float) :
  F64.is_nan best = false -> In a accs -> F64.is_nan a = false ->
  F64.geb (policy_best best accs) a = true.
Proof.
  revert best. induction accs as [|x accs IH]; intros best Hn Hin Ha;
    [destruct Hin|].
  cbn [policy_best]. destruct Hin as [->|Hin].
  - destruct (F64.geb a best) eqn:E.
    + now apply policy_best_ge_start.
    + unfold F64.geb in *. eapply leb_trans; [|apply (policy_best_ge_start accs best Hn)].
      now apply leb_total.
  - apply IH; auto. destruct (F64.geb x best) eqn:E; [|exact Hn].
    apply (leb_not_nan _ _ E).
Qed.

Lemma policy_best_in (accs : list float) (best : float) :
  policy_best best accs = best \/ In (policy_best best accs) accs.
Proof.
  revert best. induction accs as [|a accs IH]; intros best; [now left|].
  cbn [policy_best In]. destruct (F64.geb a best).
  - destruct (IH a) as [->|H]; auto.
  - destruct (IH best) as [->|H]; auto.
Qed.

Lemma checkpoint_policy_saves (accs : list float) (best : float) :
  map fst (checkpoint_policy best accs) = accs.
Proof.
  revert best. induction accs as [|a accs IH]; intros best; [reflexivity|].
  cbn [checkpoint_policy map fst]. now rewrite IH.
Qed.

(** ** binary64: the conversion of a positive [int64] is a positive number *)

Lemma digits2_pos_bounds (p : positive) :
  2 ^ (Z.pos (digits2_pos p) - 1) <= Z.pos p < 2 ^ Z.pos (digits2_pos p).
Proof.
  induction p as [p IH|p IH|]; cbn [digits2_pos].
  - rewrite Pos2Z.inj_succ. replace (Z.succ (Z.pos (digits2_pos p)) - 1) with (Z.pos (digits2_pos p)) by lia.
    rewrite Z.pow_succ_r by lia.
    replace (2 ^ Z.pos (digits2_pos p)) with (2 * 2 ^ (Z.pos (digits2_pos p) - 1)) at 1
      by (rewrite <- Z.pow_succ_r by lia; f_equal; lia).
    lia.
  - rewrite Pos2Z.inj_succ. replace (Z.succ (Z.pos (digits2_pos p)) - 1) with (Z.pos (digits2_pos p)) by lia.
    rewrite Z.pow_succ_r by lia.
    replace (2 ^ Z.pos (digits2_pos p)) with (2 * 2 ^ (Z.pos (digits2_pos p) - 1)) at 1
      by (rewrite <- Z.pow_succ_r by lia; f_equal; lia).
    lia.
  - cbn. lia.
Qed.

Lemma Zdigits2_unique (m k : Z) :
  2 ^ (k - 1) <= m < 2 ^ k -> 0 < m -> Zdigits2 m = k.
Proof.
  intros Hk Hm. destruct m as [|p|p]; try lia. cbn [Zdigits2].
  pose proof (digits2_pos_bounds p) as Hd.
  set (d := Z.pos (digits2_pos p)) in *.
  assert (0 < k).
  { destruct (Z.ltb_spec 0 k); auto. rewrite (Z.pow_neg_r 2 (k - 1)) in Hk by lia.
    assert (2 ^ k <= 1); [|lia].
    destruct (Z.eqb_spec k 0); [subst; cbn; lia|]. rewrite Z.pow_neg_r by lia. lia. }
  destruct (Z.lt_trichotomy d k) as [Hlt|[Heq|Hgt]]; auto.
  - assert (2 ^ d <= 2 ^ (k - 1)) by (apply Z.pow_le_mono_r; lia). lia.
  - assert (2 ^ k <= 2 ^ (d - 1)) by (apply Z.pow_le_mono_r; lia). lia.
Qed.

Lemma shr_1_div2 (mrs : shr_record) :
  0 <= shr_m mrs -> shr_m (shr_1 mrs) = shr_m mrs / 2.
Proof.
  destruct mrs as [m r s]. cbn [shr_m shr_1].
  destruct m as [|[p|p|]|[p|p|]]; cbn [shr_m]; intros H; try lia; try reflexivity.
  - rewrite Pos2Z.inj_xI. apply Z.div_unique with (r := 1); lia.
  - rewrite Pos2Z.inj_xO. apply Z.div_unique with (r := 0); lia.
Qed.

Lemma iter_shr_1_div (p : positive) (mrs : shr_record) :
  0 <= shr_m mrs ->
  shr_m (iter_pos shr_1 p mrs) = shr_m mrs / 2 ^ Z.pos p.
Proof.
  revert mrs. induction p as [p IH|p IH|]; intros mrs H; cbn [iter_pos].
  - assert (H1 : 0 <= shr_m (shr_1 mrs)) by (rewrite shr_1_div2 by lia; apply Z.div_pos; lia).
    assert (H2 : 0 <= shr_m (iter_pos shr_1 p (shr_1 mrs)))
      by (rewrite IH by lia; apply Z.div_pos; [lia|apply Z.pow_pos_nonneg; lia]).
    rewrite IH, IH, shr_1_div2 by lia.
    assert (E : 2 ^ Z.pos p~1 = 2 * (2 ^ Z.pos p * 2 ^ Z.pos p)).
    { rewrite Pos2Z.inj_xI, <- Z.pow_add_r, <- Z.pow_succ_r by lia. f_equal. lia. }
    assert (0 < 2 ^ Z.pos p) by (apply Z.pow_pos_nonneg; lia).
    rewrite !Z.div_div by lia. now rewrite E.
  - assert (H2 : 0 <= shr_m (iter_pos shr_1 p mrs))
      by (rewrite IH by lia; apply Z.div_pos; [lia|apply Z.pow_pos_nonneg; lia]).
    rewrite IH, IH by lia.
    assert (E : 2 ^ Z.pos p~0 = 2 ^ Z.pos p * 2 ^ Z.pos p).
    { rewrite Pos2Z.inj_xO, <- Z.pow_add_r by lia. f_equal. lia. }
    assert (0 < 2 ^ Z.pos p) by (apply Z.pow_pos_nonneg; lia).
    rewrite !Z.div_div by lia. now rewrite E.
  - rewrite shr_1_div2 by lia. reflexivity.
Qed.

Lemma fexp_no_underflow (e : Z) :
  -1021 <= e -> fexp F64.prec F64.emax e = e - 53.
Proof.
  intros H. unfold fexp, emin, F64.prec, F64.emax. lia.
Qed.

Lemma shr_fexp_fits (m e : Z) :
  0 < m -> -1021 <= Zdigits2 m + e -> Zdigits2 m <= 53 ->
  shr_fexp F64.prec F64.emax m e loc_Exact
  = ({| shr_m := m; shr_r := false; shr_s := false |}, e).
Proof.
  intros Hm He Hd. unfold shr_fexp. rewrite fexp_no_underflow by assumption.
  unfold shr. cbn [shr_record_of_loc].
  destruct (Zdigits2 m + e - 53 - e) eqn:E; try reflexivity. lia.
Qed.

Lemma shr_fexp_shifts (m e : Z) :
  0 < m -> -1021 <= Zdigits2 m + e -> 53 < Zdigits2 m ->
  exists mrs,
    shr_fexp F64.prec F64.emax m e loc_Exact = (mrs, e + (Zdigits2 m - 53))
    /\ shr_m mrs = m / 2 ^ (Zdigits2 m - 53).
Proof.
  intros Hm He Hd. unfold shr_fexp. rewrite fexp_no_underflow by assumption.
  unfold shr. cbn [shr_record_of_loc].
  replace (Zdigits2 m + e - 53 - e) with (Zdigits2 m - 53) by lia.
  destruct (Zdigits2 m - 53) as [|n|n] eqn:E; try lia.
  eexists. split; [reflexivity|].
  rewrite iter_shr_1_div by (cbn; lia). reflexivity.
Qed.

Lemma Zdigits2_bounds (m : Z) :
  0 < m -> 2 ^ (Zdigits2 m - 1) <= m < 2 ^ Zdigits2 m.
Proof.
  destruct m as [|p|p]; try lia. intros _. apply digits2_pos_bounds.
Qed.

Lemma Zdigits2_pos (m : Z) : 0 < m -> 0 < Zdigits2 m.
Proof. destruct m; cbn; lia. Qed.

(** Rounding a positive mantissa that neither underflows nor overflows
    gives a positive number. *)
Lemma binary_round_aux_finite (mx ex : Z) :
  0 < mx ->
  -1021 <= Zdigits2 mx + ex <= 1023 ->
  ex <= 971 ->
  finite_pos (binary_round_aux F64.prec F64.emax false mx ex loc_Exact) = true.
Proof.
  intros Hm He Hex. unfold binary_round_aux.
  pose proof (Zdigits2_bounds mx Hm) as Hb.
  destruct (Z.leb_spec (Zdigits2 mx) 53) as [Hd|Hd].
  - rewrite shr_fexp_fits by (assumption || lia).
    cbn [shr_m loc_of_shr_record round_nearest_even].
    rewrite shr_fexp_fits by (assumption || lia). cbn [shr_m].
    destruct mx as [|p|p]; try lia.
    change (F64.emax - F64.prec) with 971.
    destruct (Z.leb_spec ex 971); [reflexivity|lia].
  - destruct (shr_fexp_shifts mx ex Hm ltac:(lia) Hd) as (mrs & -> & Hmrs).
    set (n := Zdigits2 mx - 53) in *.
    set (m2 := round_nearest_even (shr_m mrs) (loc_of_shr_record mrs)).
    assert (Hpow : 2 ^ Zdigits2 mx = 2 ^ 53 * 2 ^ n).
    { rewrite <- Z.pow_add_r by lia. f_equal. lia. }
    assert (Hpow' : 2 ^ (Zdigits2 mx - 1) = 2 ^ 52 * 2 ^ n).
    { rewrite <- Z.pow_add_r by lia. f_equal. lia. }
    assert (Hn : 0 < 2 ^ n) by (apply Z.pow_pos_nonneg; lia).
    assert (Hm1 : 2 ^ 52 <= shr_m mrs < 2 ^ 53).
    { rewrite Hmrs. split.
      - apply Z.div_le_lower_bound; lia.
      - apply Z.div_lt_upper_bound; lia. }
    pose proof (round_nearest_even_range (shr_m mrs) (loc_of_shr_record mrs)) as Hr.
    fold m2 in Hr.
    assert (Hm2 : 0 < m2) by lia.
    destruct (Z.eqb_spec m2 (2 ^ 53)) as [E|E].
    + assert (Hd2 : Zdigits2 m2 = 54).
      { apply Zdigits2_unique; [|lia]. rewrite E. change (54 - 1) with 53.
        split; [lia|]. apply Z.pow_lt_mono_r; lia. }
      destruct (shr_fexp_shifts m2 (ex + n) Hm2 ltac:(lia) ltac:(lia))
        as (mrs2 & -> & Hmrs2).
      rewrite Hd2 in *. rewrite Hmrs2, E. change (2 ^ 53 / 2 ^ (54 - 53)) with (2 ^ 52).
      cbn -[Z.leb Z.add]. change (F64.emax - F64.prec) with 971.
      destruct (Z.leb_spec (ex + n + (54 - 53)) 971); [reflexivity|lia].
    + assert (Hd2 : Zdigits2 m2 = 53).
      { apply Zdigits2_unique; [|lia]. change (53 - 1) with 52. lia. }
      rewrite shr_fexp_fits by (assumption || lia). cbn [shr_m].
      destruct m2 as [|p|p]; try lia.
      change (F64.emax - F64.prec) with 971.
      destruct (Z.leb_spec (ex + n) 971); [reflexivity|lia].
Qed.

Lemma iter_xO_value (k p : positive) :
  Z.pos (Pos.iter xO p k) = Z.pos p * 2 ^ Z.pos k.
Proof.
  revert p. induction k as [|k IH] using Pos.peano_ind; intros p.
  - cbn [Pos.iter]. rewrite Pos2Z.inj_xO. change (2 ^ 1) with 2. lia.
  - rewrite Pos.iter_succ, Pos2Z.inj_xO, IH, Pos2Z.inj_succ, Z.pow_succ_r by lia. lia.
Qed.

Lemma of_Z_finite (z : Z) :
  0 < z < 2 ^ 63 -> finite_pos (F64.of_Z z) = true.
Proof.
  intros Hz. destruct z as [|p|p]; try lia.
  unfold F64.of_Z, binary_normalize, binary_round.
  pose proof (digits2_pos_bounds p) as Hb.
  set (d := Z.pos (digits2_pos p)) in *.
  assert (Hd : 0 < d <= 63).
  { split; [lia|]. destruct (Z.leb_spec d 63); auto.
    assert (2 ^ 63 <= 2 ^ (d - 1)) by (apply Z.pow_le_mono_r; lia). lia. }
  rewrite Z.add_0_r, fexp_no_underflow by lia.
  unfold shl_align. rewrite Z.sub_0_r.
  destruct (d - 53) as [|k|k] eqn:Ek.
  - apply binary_round_aux_finite; cbn [Zdigits2]; fold d; lia.
  - apply binary_round_aux_finite; cbn [Zdigits2]; fold d; lia.
  - assert (Hdig : Zdigits2 (Z.pos (Pos.iter xO p k)) = 53).
    { apply Zdigits2_unique; [|lia]. rewrite iter_xO_value.
      assert (Hk : Z.pos k = 53 - d) by lia.
      assert (E1 : 2 ^ (53 - 1) = 2 ^ (d - 1) * 2 ^ Z.pos k).
      { rewrite <- Z.pow_add_r by lia. f_equal. lia. }
      assert (E2 : 2 ^ 53 = 2 ^ d * 2 ^ Z.pos k).
      { rewrite <- Z.pow_add_r by lia. f_equal. lia. }
      assert (0 < 2 ^ Z.pos k) by (apply Z.pow_pos_nonneg; lia).
      rewrite E1, E2. nia. }
    apply binary_round_aux_finite; [lia| |lia].
    rewrite Hdig. lia.
Qed.

(** ** binary64: a positive number divided by itself is 1.0 *)

Lemma div_eucl_multiple (m : positive) (k : Z) :
  Z.div_eucl (Z.pos m * k) (Z.pos m) = (k, 0).
Proof.
  pose proof (Z.div_mul k (Z.pos m) ltac:(lia)) as Hq.
  pose proof (Z.mod_mul k (Z.pos m) ltac:(lia)) as Hr.
  rewrite (Z.mul_comm k) in Hq, Hr.
  unfold Z.div, Z.modulo in Hq, Hr.
  destruct (Z.div_eucl (Z.pos m * k) (Z.pos m)) as [q r].
  now subst.
Qed.

Lemma div_self (x : float) :
  finite_pos x = true -> F64.div x x = F64.of_Z 1.
Proof.
  destruct x as [ | | |[] m e]; cbn [finite_pos]; try discriminate. intros _.
  unfold F64.div, SFdiv, SFdiv_core_binary.
  rewrite !Z.sub_diag.
  change (Z.min (fexp F64.prec F64.emax 0) 0) with (-53).
  change (0 - -53) with 53.
  rewrite Z.shiftl_mul_pow2 by lia.
  rewrite div_eucl_multiple.
  unfold new_location, new_location_even, new_location_odd.
  change (0 =? 0) with true. cbv iota.
  destruct (Z.even (Z.pos m)); vm_compute; reflexivity.
Qed.

Lemma div_zero_by_finite (y : float) :
  finite_pos y = true -> F64.div F64.zero y = F64.zero.
Proof.
  destruct y as [ | | |[] m e]; cbn [finite_pos]; try discriminate. reflexivity.
Qed.

(** ** The accuracy of a batch is never negative *)

Lemma sum1_terms_length (outputs labels terms : list Z) :
  sum1_terms outputs labels = Ok terms -> len outputs <= len labels.
Proof.
  revert labels terms. induction outputs as [|o os IH]; intros labels terms H.
  - change (@len Z []) with 0. apply len_nonneg.
  - destruct labels as [|l ls]; [discriminate|]. cbn [sum1_terms] in H.
    destruct (sum1_terms os ls) as [ts|e] eqn:E; [|discriminate].
    apply IH in E. rewrite !len_cons. lia.
Qed.

Lemma np_equal_length (a b : list Z) (eqs : list bool) :
  np_equal a b = Ok eqs -> len eqs <= Z.max (len a) (len b).
Proof.
  unfold np_equal. destruct (len a =? len b) eqn:E.
  - intros H. injection H as <-. rewrite len_map.
    unfold len. rewrite length_combine. lia.
  - destruct a as [|x [|x' a]]; destruct b as [|y [|y' b]]; intros H;
      try discriminate; injection H as <-; unfold len;
      cbn [map List.length]; rewrite ?length_map; cbn [List.length]; lia.
Qed.

Lemma accuracy_pos_sign (logits : list (list float)) (labels : list Z)
      (a p r : float) :
  accuracy logits labels = Ok (a, p, r) ->
  len labels < 2 ^ 63 ->
  pos_sign a = true.
Proof.
  unfold accuracy. intros H Hb.
  destruct (np_argmax_axis1 logits) as [outputs|e]; [|discriminate].
  destruct (sum1_terms outputs labels) as [terms|e] eqn:Et; [|discriminate].
  destruct (np_equal outputs labels) as [eqs|e] eqn:Ee; [|discriminate].
  destruct (len outputs =? 0) eqn:E0; [discriminate|].
  injection H as <- _ _.
  apply Z.eqb_neq in E0. pose proof (len_nonneg outputs).
  apply sum1_terms_length in Et. apply np_equal_length in Ee.
  unfold np_true_divide. apply div_pos_sign.
  - apply of_Z_pos_sign. rewrite np_sum_bools by lia.
    apply count_if_bounds.
  - apply of_Z_finite. lia.
Qed.

(** ** More on [accuracy] *)

Lemma accuracy_same_shape (logits : list (list float)) (labels outputs : list Z) :
  np_argmax_axis1 logits = Ok outputs ->
  len labels = len outputs ->
  len outputs < 2 ^ 63 ->
  accuracy logits labels
  = if len outputs =? 0 then Raise ZeroDivisionError
    else Ok (np_true_divide (correct outputs labels) (len outputs),
             np_true_divide (true_positive outputs labels) (np_sum outputs),
             np_true_divide (true_positive outputs labels) (np_sum labels)).
Proof.
  intros Harg Hlen Hb.
  pose proof (len_eq_length _ _ Hlen) as Hlen'.
  unfold accuracy. rewrite Harg.
  destruct (sum1_terms_same_length outputs labels Hlen') as (ts & Hts & Hsum).
  rewrite Hts, np_equal_same_length by assumption.
  destruct (len outputs =? 0); [reflexivity|].
  rewrite Hsum.
  rewrite np_sum_bools by (rewrite len_map, len_combine_same; assumption).
  rewrite count_if_map. reflexivity.
Qed.

Lemma np_argmax_axis1_empty_row (logits : list (list float)) :
  In [] logits -> np_argmax_axis1 logits = Raise ValueError.
Proof.
  induction logits as [|row rows IH]; intros Hin; [destruct Hin|].
  cbn [np_argmax_axis1]. destruct row as [|x rest].
  - reflexivity.
  - destruct Hin as [Hin|Hin]; [discriminate|].
    rewrite (IH Hin). cbn [np_argmax]. destruct (F64.is_nan x); reflexivity.
Qed.

Lemma sum1_terms_short_labels (outputs labels : list Z) :
  len labels < len outputs -> sum1_terms outputs labels = Raise IndexError.
Proof.
  revert labels. induction outputs as [|o os IH]; intros labels H.
  - change (@len Z []) with 0 in H. pose proof (len_nonneg labels). lia.
  - destruct labels as [|l ls]; [reflexivity|].
    cbn [sum1_terms]. rewrite IH; [reflexivity|]. rewrite !len_cons in H. lia.
Qed.

Lemma correct_self (l : list Z) : correct l l = len l.
Proof.
  unfold correct. induction l as [|x l IH]; [reflexivity|].
  cbn [combine]. rewrite count_if_cons, len_cons, IH. cbn [fst snd].
  rewrite Z.eqb_refl. cbn [Z.b2z]. lia.
Qed.

Lemma true_positive_all_predicted (outputs labels : list Z) :
  List.length labels = List.length outputs ->
  Forall (fun p => fst p = 1 -> snd p = 1) (combine outputs labels) ->
  true_positive outputs labels = predicted_positive outputs.
Proof.
  unfold true_positive, predicted_positive.
  revert labels. induction outputs as [|o os IH]; intros [|l ls] Hlen H;
    try discriminate; [reflexivity|].
  cbn [combine] in *. inversion H as [|? ? Hp Hrest]; subst.
  rewrite !count_if_cons, IH by (auto; cbn in Hlen; lia). cbn [fst snd] in *.
  destruct (Z.eqb_spec o 1) as [E|E]; [|reflexivity].
  rewrite (Hp E). reflexivity.
Qed.

Lemma true_positive_all_actual (outputs labels : list Z) :
  List.length labels = List.length outputs ->
  Forall (fun p => snd p = 1 -> fst p = 1) (combine outputs labels) ->
  true_positive outputs labels = actual_positive labels.
Proof.
  unfold true_positive, actual_positive.
  revert labels. induction outputs as [|o os IH]; intros [|l ls] Hlen H;
    try discriminate; [reflexivity|].
  cbn [combine] in *. inversion H as [|? ? Hp Hrest]; subst.
  rewrite !count_if_cons, IH by (auto; cbn in Hlen; lia). cbn [fst snd] in *.
  destruct (Z.eqb_spec l 1) as [E|E]; [|now rewrite andb_false_r].
  rewrite (Hp E). reflexivity.
Qed.

Lemma argmax_scan_range (row : list float) (mp : float) (max_ind i : Z) :
  0 <= max_ind < i ->
  0 <= argmax_scan mp max_ind i row < i + len row.
Proof.
  revert mp max_ind i. induction row as [|x rest IH]; intros mp max_ind i H;
    cbn [argmax_scan].
  - change (@len float []) with 0. lia.
  - rewrite len_cons. pose proof (len_nonneg rest) as Hr.
    destruct (F64.leb x mp).
    + specialize (IH mp max_ind (i + 1) ltac:(lia)). lia.
    + destruct (F64.is_nan x); [lia|].
      specialize (IH x i (i + 1) ltac:(lia)). lia.
Qed.

Lemma np_argmax_range (row : list float) (c : Z) :
  np_argmax row = Ok c -> 0 <= c < len row.
Proof.
  destruct row as [|x rest]; [discriminate|]. cbn [np_argmax].
  rewrite len_cons. pose proof (len_nonneg rest) as Hr.
  destruct (F64.is_nan x); intros H; injection H as <-; [lia|].
  pose proof (argmax_scan_range rest x 0 1 ltac:(lia)). lia.
Qed.

Lemma np_argmax_axis1_two_columns (logits : list (list float)) :
  Forall (fun row => len row = 2) logits ->
  exists outputs,
    np_argmax_axis1 logits = Ok outputs
    /\ len outputs = len logits
    /\ Forall binary outputs.
Proof.
  induction 1 as [|row rows Hrow Hrows IH].
  - exists []. repeat split. constructor.
  - destruct IH as (cs & Hcs & Hlen & Hbin). cbn [np_argmax_axis1].
    destruct (np_argmax row) as [c|e] eqn:E.
    + rewrite Hcs. exists (c :: cs). split; [reflexivity|].
      split; [rewrite !len_cons; lia|].
      constructor; [|exact Hbin].
      apply np_argmax_range in E. unfold binary. lia.
    + destruct row; [discriminate Hrow|]. cbn [np_argmax] in E.
      destruct (F64.is_nan f); discriminate.
Qed.

(** With one label per row and any number of classes, [accuracy] returns
    correct / B for the accuracy, and for precision and recall the count of
    rows predicted 1 with label 1 divided by the [int64] sum of the
    predicted class indices and by the sum of the labels; it raises
    ZeroDivisionError on the empty batch. *)
Theorem accuracy_with_one_label_per_row
        (logits : list (list float)) (labels outputs : list Z) :
  np_argmax_axis1 logits = Ok outputs ->
  len labels = len outputs ->
  len outputs < 2 ^ 63 ->
  accuracy logits labels
  = if len outputs =? 0 then Raise ZeroDivisionError
    else Ok (np_true_divide (correct outputs labels) (len outputs),
             np_true_divide (true_positive outputs labels) (np_sum outputs),
             np_true_divide (true_positive outputs labels) (np_sum labels)).
Proof.
  intros. now apply accuracy_same_shape.
Qed.

Lemma accuracy_with_one_label_per_row_witness :
  let logits := [[F64.of_Z 0; F64.of_Z 0; F64.of_Z 1];
                 [F64.of_Z 0; F64.of_Z 1; F64.of_Z 0];
                 [F64.of_Z 5; F64.of_Z 1; F64.of_Z 0]] in
  accuracy logits [2; 1; 1]
  = Ok (np_true_divide 2 3, np_true_divide 1 3, np_true_divide 1 4).
Proof.
  intro logits.
  apply (accuracy_with_one_label_per_row logits [2; 1; 1] [2; 1; 0]);
    vm_compute; reflexivity.
Defined.

(** The errors of [accuracy]: ZeroDivisionError on the empty batch,
    ValueError when a row of scores is empty, IndexError when there are
    fewer labels than rows. *)
Theorem accuracy_errors :
  accuracy [] [] = Raise ZeroDivisionError
  /\ (forall logits labels,
         In [] logits -> accuracy logits labels = Raise ValueError)
  /\ (forall logits labels outputs,
         np_argmax_axis1 logits = Ok outputs ->
         len labels < len outputs ->
         accuracy logits labels = Raise IndexError).
Proof.
  split; [reflexivity|]. split.
  - intros logits labels Hin. unfold accuracy.
    now rewrite np_argmax_axis1_empty_row.
  - intros logits labels outputs Harg Hlen. unfold accuracy.
    now rewrite Harg, sum1_terms_short_labels.
Qed.

Lemma accuracy_errors_witness :
  accuracy [two_class_row 1; []] [1; 0] = Raise ValueError
  /\ accuracy [two_class_row 1; two_class_row 0] [1] = Raise IndexError.
Proof.
  split.
  - apply (proj1 (proj2 accuracy_errors)). right. left. reflexivity.
  - apply (proj2 (proj2 accuracy_errors) _ _ [1; 0]);
      vm_compute; reflexivity.
Defined.

(** When every predicted class is the true label, on a batch that is not
    empty, the accuracy returned is exactly 1.0. *)
Theorem accuracy_of_perfect_predictions
        (logits : list (list float)) (labels : list Z) :
  np_argmax_axis1 logits = Ok labels ->
  0 < len labels < 2 ^ 63 ->
  exists p r, accuracy logits labels = Ok (F64.of_Z 1, p, r).
Proof.
  intros Harg Hb.
  rewrite (accuracy_same_shape logits labels labels) by (auto; lia).
  destruct (Z.eqb_spec (len labels) 0); [lia|].
  rewrite correct_self. unfold np_true_divide at 1.
  rewrite div_self by (apply of_Z_finite; lia).
  do 2 eexists. reflexivity.
Qed.

Lemma accuracy_of_perfect_predictions_witness :
  exists p r,
    accuracy (map two_class_row [1; 0; 0]) [1; 0; 0] = Ok (F64.of_Z 1, p, r).
Proof.
  apply accuracy_of_perfect_predictions; vm_compute; [reflexivity|].
  split; reflexivity.
Defined.

(** With classes and labels 0 or 1: the precision is exactly 1.0 when some
    example is predicted positive and every example predicted positive is
    truly positive; the recall is exactly 1.0 when some example is truly
    positive and every truly positive example is predicted positive. *)
Theorem precision_and_recall_of_one
        (logits : list (list float)) (labels outputs : list Z) :
  np_argmax_axis1 logits = Ok outputs ->
  len labels = len outputs ->
  Forall binary outputs ->
  Forall binary labels ->
  len outputs < 2 ^ 63 ->
  (0 < predicted_positive outputs ->
   Forall (fun p => fst p = 1 -> snd p = 1) (combine outputs labels) ->
   exists a r, accuracy logits labels = Ok (a, F64.of_Z 1, r))
  /\ (0 < actual_positive labels ->
      Forall (fun p => snd p = 1 -> fst p = 1) (combine outputs labels) ->
      exists a p, accuracy logits labels = Ok (a, p, F64.of_Z 1)).
Proof.
  intros Harg Hlen Ho Hl Hb.
  pose proof (len_eq_length _ _ Hlen) as Hlen'.
  rewrite (accuracy_binary logits labels outputs) by assumption.
  pose proof (count_if_bounds (fun o => o =? 1) outputs) as Hpp.
  pose proof (count_if_bounds (fun l => l =? 1) labels) as Hap.
  fold (predicted_positive outputs) in Hpp.
  fold (actual_positive labels) in Hap.
  split; intros Hpos Hall.
  - destruct (Z.eqb_spec (len outputs) 0); [lia|].
    rewrite true_positive_all_predicted by assumption.
    unfold np_true_divide at 2.
    rewrite div_self by (apply of_Z_finite; lia).
    do 2 eexists. reflexivity.
  - destruct (Z.eqb_spec (len outputs) 0); [lia|].
    rewrite (true_positive_all_actual outputs labels) by assumption.
    unfold np_true_divide at 3.
    rewrite div_self by (apply of_Z_finite; lia).
    do 2 eexists. reflexivity.
Qed.

(** Predictions [1,0,0] for labels [1,1,0]: the one predicted positive is
    truly positive. Predictions [1,1,0] for labels [1,0,0]: the one truly
    positive is predicted positive. *)
Lemma precision_and_recall_of_one_witness :
  (exists a r,
      accuracy (map two_class_row [1; 0; 0]) [1; 1; 0]
      = Ok (a, F64.of_Z 1, r))
  /\ (exists a p,
         accuracy (map two_class_row [1; 1; 0]) [1; 0; 0]
         = Ok (a, p, F64.of_Z 1)).
Proof.
  split.
  - apply (proj1 (precision_and_recall_of_one
                    (map two_class_row [1; 0; 0]) [1; 1; 0] [1; 0; 0]
                    eq_refl eq_refl
                    ltac:(repeat constructor; (now left) || (now right))
                    ltac:(repeat constructor; (now left) || (now right))
                    eq_refl)).
    + reflexivity.
    + repeat constructor; cbn; intros; congruence.
  - apply (proj2 (precision_and_recall_of_one
                    (map two_class_row [1; 1; 0]) [1; 0; 0] [1; 1; 0]
                    eq_refl eq_refl
                    ltac:(repeat constructor; (now left) || (now right))
                    ltac:(repeat constructor; (now left) || (now right))
                    eq_refl)).
    + reflexivity.
    + repeat constructor; cbn; intros; congruence.
Defined.

(** On scores with exactly two columns and labels 0 or 1, one per row:
    every predicted class is 0 or 1, and [accuracy] returns correct / B,
    true positives / predicted positives and true positives / actual
    positives (ZeroDivisionError on the empty batch). *)
Theorem metrics_on_two_column_scores
        (logits : list (list float)) (labels : list Z) :
  Forall (fun row => len row = 2) logits ->
  len labels = len logits ->
  Forall binary labels ->
  len logits < 2 ^ 63 ->
  exists outputs,
    np_argmax_axis1 logits = Ok outputs
    /\ Forall binary outputs
    /\ accuracy logits labels
       = if len logits =? 0 then Raise ZeroDivisionError
         else Ok (np_true_divide (correct outputs labels) (len logits),
                  np_true_divide (true_positive outputs labels)
                                 (predicted_positive outputs),
                  np_true_divide (true_positive outputs labels)
                                 (actual_positive labels)).
Proof.
  intros Hrows Hlen Hl Hb.
  destruct (np_argmax_axis1_two_columns logits Hrows) as (outputs & Harg & Ho & Hbin).
  exists outputs. split; [exact Harg|]. split; [exact Hbin|].
  rewrite <- Ho. apply accuracy_binary; auto; lia.
Qed.

Lemma metrics_on_two_column_scores_witness :
  let logits := [[F64.of_Z 3; F64.of_Z 3]; [F64.nan; F64.of_Z 9];
                 [F64.of_Z 1; F64.of_Z 2]] in
  exists outputs,
    np_argmax_axis1 logits = Ok outputs
    /\ Forall binary outputs
    /\ accuracy logits [0; 1; 1]
       = Ok (np_true_divide (correct outputs [0; 1; 1]) 3,
             np_true_divide (true_positive outputs [0; 1; 1])
                            (predicted_positive outputs),
             np_true_divide (true_positive outputs [0; 1; 1])
                            (actual_positive [0; 1; 1])).
Proof.
  intro logits.
  apply (metrics_on_two_column_scores logits [0; 1; 1]).
  - repeat constructor.
  - reflexivity.
  - repeat constructor; (now left) || (now right).
  - reflexivity.
Defined.

(** Whenever [accuracy] returns, on fewer than 2^63 labels, the accuracy it
    returns is not [nan] and is greater than or equal to 0. *)
Theorem accuracy_is_not_negative
        (logits : list (list float)) (labels : list Z) (a p r : float) :
  accuracy logits labels = Ok (a, p, r) ->
  len labels < 2 ^ 63 ->
  F64.is_nan a = false /\ F64.geb a F64.zero = true.
Proof.
  intros H Hb. pose proof (accuracy_pos_sign _ _ _ _ _ H Hb) as Hs.
  split; [now apply pos_sign_not_nan|now apply pos_sign_geb_zero].
Qed.

Lemma accuracy_is_not_negative_witness :
  F64.is_nan F64.zero = false /\ F64.geb F64.zero F64.zero = true.
Proof.
  apply (accuracy_is_not_negative [two_class_row 0] [1]
           F64.zero F64.nan F64.zero); reflexivity.
Defined.

(** ** The trace monad *)

Section Traces.

Variable Tensor : Type.

Lemma bind_ok {A B : Type} (c : M Tensor A) (k : A -> M Tensor B)
      (tr tr' : trace Tensor) (b : B) :
  bind c k tr = Ok (b, tr') <->
  exists a tr1, c tr = Ok (a, tr1) /\ k a tr1 = Ok (b, tr').
Proof.
  unfold bind. split.
  - destruct (c tr) as [[a tr1]|e]; [|discriminate]. intros H. now exists a, tr1.
  - intros (a & tr1 & -> & H). exact H.
Qed.

Lemma bind_assoc {A B C : Type} (c : M Tensor A) (k : A -> M Tensor B)
      (k' : B -> M Tensor C) (tr : trace Tensor) :
  bind (bind c k) k' tr = bind c (fun a => bind (k a) k') tr.
Proof.
  unfold bind. destruct (c tr) as [[a tr1]|e]; reflexivity.
Qed.

Lemma bind_ext {A B : Type} (c : M Tensor A) (k k' : A -> M Tensor B)
      (tr : trace Tensor) :
  (forall a tr1, k a tr1 = k' a tr1) -> bind c k tr = bind c k' tr.
Proof.
  intros H. unfold bind. destruct (c tr) as [[a tr1]|e]; auto.
Qed.

Lemma for_each_app {S X : Type} (body : S -> X -> M Tensor S)
      (l1 l2 : list X) (s : S) (tr : trace Tensor) :
  for_each body (l1 ++ l2) s tr
  = bind (for_each body l1 s) (fun s' => for_each body l2 s') tr.
Proof.
  revert s tr. induction l1 as [|x l1 IH]; intros s tr; cbn [for_each app].
  - reflexivity.
  - rewrite bind_assoc. apply bind_ext. intros s' tr1. apply IH.
Qed.

(** A loop over loaders whose body is a loop over batches is one loop over
    all the batches. *)
Lemma for_each_nested {S X Y : Type} (body : S -> Y -> M Tensor S)
      (items : X -> list Y) (l : list X) (s : S) (tr : trace Tensor) :
  for_each (fun s x => for_each body (items x) s) l s tr
  = for_each body (flat_map items l) s tr.
Proof.
  revert s tr. induction l as [|x l IH]; intros s tr; cbn [for_each flat_map].
  - reflexivity.
  - rewrite for_each_app. apply bind_ext. intros s' tr1. apply IH.
Qed.

Lemma emits_ret {A : Type} (P : event Tensor -> Prop) (a : A) :
  emits P (ret a).
Proof.
  intros tr a' tr' H. injection H as <- <-. exists []. now rewrite app_nil_r.
Qed.

Lemma emits_emit (P : event Tensor -> Prop) (e : event Tensor) :
  P e -> emits P (emit e).
Proof.
  intros He tr a tr' H. injection H as <- <-. exists [e]. auto.
Qed.

Lemma emits_lift {A : Type} (P : event Tensor -> Prop) (r : result A) :
  emits P (lift r).
Proof.
  intros tr a tr' H. unfold lift in H. destruct r; [|discriminate].
  injection H as <- <-. exists []. now rewrite app_nil_r.
Qed.

Lemma emits_bind {A B : Type} (P : event Tensor -> Prop) (c : M Tensor A)
      (k : A -> M Tensor B) :
  emits P c -> (forall a, emits P (k a)) -> emits P (bind c k).
Proof.
  intros Hc Hk tr b tr' H. apply bind_ok in H. destruct H as (a & tr1 & H1 & H2).
  destruct (Hc _ _ _ H1) as (evs1 & -> & HP1).
  destruct (Hk _ _ _ _ H2) as (evs2 & -> & HP2).
  exists (evs1 ++ evs2). rewrite app_assoc. split; [reflexivity|].
  apply Forall_app. auto.
Qed.

Lemma emits_for_each {S X : Type} (P : event Tensor -> Prop)
      (body : S -> X -> M Tensor S) (l : list X) (s : S) :
  (forall s x, emits P (body s x)) -> emits P (for_each body l s).
Proof.
  intros Hb. revert s. induction l as [|x l IH]; intros s; cbn [for_each].
  - apply emits_ret.
  - apply emits_bind; auto.
Qed.

Lemma emits_if {A : Type} (P : event Tensor -> Prop) (b : bool)
      (c1 c2 : M Tensor A) :
  emits P c1 -> emits P c2 -> emits P (if b then c1 else c2).
Proof. destruct b; auto. Qed.

Lemma emits_call_model (P : event Tensor -> Prop)
      (model : trace Tensor -> Batch -> ModelOutput Tensor)
      (no_grad : bool) (batch : Batch) :
  P (model_call no_grad batch) -> emits P (call_model model no_grad batch).
Proof.
  intros He tr a tr' H. injection H as <- <-. exists [model_call no_grad batch]. auto.
Qed.

End Traces.

Create HintDb emits.
#[export] Hint Resolve emits_ret emits_emit emits_lift emits_bind emits_for_each
  emits_if emits_call_model : emits.

Section Properties.

Variable Tensor : Type.
Variable tensor_mean : Tensor -> Tensor.
Variable tensor_item : Tensor -> float.
Variable model : trace Tensor -> Batch -> ModelOutput Tensor.
Variable n_gpu : Z.

Local Abbreviation train_step := (train_step tensor_mean tensor_item model n_gpu).
Local Abbreviation train_loader := (train_loader tensor_mean tensor_item model n_gpu).
Local Abbreviation train_epoch := (train_epoch tensor_mean tensor_item model n_gpu).
Local Abbreviation eval_step := (eval_step tensor_mean tensor_item model).
Local Abbreviation evaluate := (evaluate tensor_mean tensor_item model).
Local Abbreviation epoch := (epoch tensor_mean tensor_item model n_gpu).
Local Abbreviation epochs := (epochs tensor_mean tensor_item model n_gpu).
Local Abbreviation main := (main tensor_mean tensor_item model n_gpu).
Local Abbreviation run_main := (run_main tensor_mean tensor_item model n_gpu).
Local Abbreviation step_loss := (step_loss tensor_mean model n_gpu).
Local Abbreviation step_events := (step_events tensor_mean model n_gpu).
Local Abbreviation steps_trace := (steps_trace tensor_mean model n_gpu).
Local Abbreviation steps_losses := (steps_losses tensor_mean tensor_item model n_gpu).
Local Abbreviation eval_batch := (eval_batch tensor_mean tensor_item model).
Local Abbreviation eval_batches := (eval_batches tensor_mean tensor_item model).
Local Abbreviation before_checkpoint :=
  (before_checkpoint tensor_mean tensor_item model n_gpu).

(** *** Training *)

Lemma train_step_runs (train_loss : float) (batch : Batch) (tr : trace Tensor) :
  train_step train_loss batch tr
  = Ok (F64.add train_loss (tensor_item (step_loss tr batch)),
        tr ++ step_events tr batch).
Proof.
  unfold train_step, step_events, step_loss, bind, call_model, mean, emit, ret.
  destruct (1 <? n_gpu); cbn [bind app]; unfold bind;
    repeat rewrite <- app_assoc; reflexivity.
Qed.

Lemma train_steps_run (batches : list Batch) (train_loss : float)
      (tr : trace Tensor) :
  for_each train_step batches train_loss tr
  = Ok (fold_left F64.add (steps_losses tr batches) train_loss,
        steps_trace tr batches).
Proof.
  revert train_loss tr. induction batches as [|b rest IH]; intros tl tr.
  - reflexivity.
  - cbn [for_each steps_losses steps_trace fold_left].
    unfold bind. rewrite train_step_runs. apply IH.
Qed.

Lemma train_epoch_runs (data_loaders : list DataLoader) (step_per_epoch ie : Z)
      (tr : trace Tensor) :
  let tr0 := tr ++ [model_train; tqdm_enter step_per_epoch (ie + 1)] in
  let batches := flat_map dl_iter (firstn 3 data_loaders) in
  train_epoch data_loaders step_per_epoch ie tr
  = Ok (F64.sum (steps_losses tr0 batches),
        steps_trace tr0 batches ++ [tqdm_exit]).
Proof.
  intros tr0 batches. unfold train_epoch, bind, emit.
  change (for_each train_loader) with
    (for_each (fun s x => for_each train_step (dl_iter x) s)).
  rewrite for_each_nested, <- app_assoc. cbn [app]. fold tr0. fold batches.
  rewrite train_steps_run. reflexivity.
Qed.


(** *** Evaluation *)

Lemma eval_step_runs (s : EvalSums) (batch : Batch) (tr : trace Tensor) :
  eval_step s batch tr
  = match eval_batch batch tr with
    | Raise e => Raise e
    | Ok (v, tr') =>
        Ok ({| eval_loss := F64.add (eval_loss s) (v_loss v);
               eval_accuracy := F64.add (eval_accuracy s) (v_accuracy v);
               eval_precision := F64.add (eval_precision s) (v_precision v);
               eval_recall := F64.add (eval_recall s) (v_recall v);
               eval_examples := eval_examples s + len (b_input_ids batch) |},
            tr')
    end.
Proof.
  unfold eval_step, eval_batch, bind, call_model, lift, mean, emit, ret.
  destruct (accuracy _ _) as [[[a p] r]|e]; reflexivity.
Qed.

Lemma eval_steps_run (batches : list Batch) (s : EvalSums) (tr : trace Tensor) :
  for_each eval_step batches s tr
  = match eval_batches batches tr with
    | Raise e => Raise e
    | Ok (vals, tr') =>
        Ok ({| eval_loss := fold_left F64.add (map v_loss vals) (eval_loss s);
               eval_accuracy :=
                 fold_left F64.add (map v_accuracy vals) (eval_accuracy s);
               eval_precision :=
                 fold_left F64.add (map v_precision vals) (eval_precision s);
               eval_recall :=
                 fold_left F64.add (map v_recall vals) (eval_recall s);
               eval_examples :=
                 fold_left (fun n b => n + len (b_input_ids b)) batches
                           (eval_examples s) |},
            tr')
    end.
Proof.
  revert s tr. induction batches as [|b rest IH]; intros s tr.
  - destruct s; reflexivity.
  - cbn [for_each eval_batches]. unfold bind at 1 2. rewrite eval_step_runs.
    destruct (eval_batch b tr) as [[v tr1]|e]; [|reflexivity].
    rewrite IH. unfold bind.
    destruct (eval_batches rest tr1) as [[vals tr2]|e]; reflexivity.
Qed.

Lemma evaluate_runs (data_loaders : list DataLoader) (eval_loader : DataLoader)
      (tr : trace Tensor) :
  index data_loaders 3 = Ok eval_loader ->
  evaluate data_loaders tr
  = (emit model_eval ;;
     vals <- eval_batches (dl_iter eval_loader) ;;
     lift (batch_averages vals (dl_len eval_loader))) tr.
Proof.
  intros Hidx. unfold evaluate, bind, emit. rewrite Hidx. cbn [lift].
  rewrite eval_steps_run.
  destruct (eval_batches _ _) as [[vals tr1]|e]; [|reflexivity].
  cbn [eval_loss eval_accuracy eval_precision eval_recall eval_sums0].
  unfold batch_averages, lift, ret. fold (F64.sum (map v_loss vals)).
  fold (F64.sum (map v_accuracy vals)). fold (F64.sum (map v_precision vals)).
  fold (F64.sum (map v_recall vals)).
  repeat (destruct (py_truediv _ _); [|reflexivity]). reflexivity.
Qed.

(** *** The checkpoint decision *)

Lemma checkpoint_runs (acc best : float) (tr : trace Tensor) :
  checkpoint acc best tr
  = Ok (if F64.geb acc best then (acc, tr ++ [torch_save]) else (best, tr)).
Proof.
  unfold checkpoint. destruct (F64.geb acc best); reflexivity.
Qed.

Lemma epoch_decompose (data_loaders : list DataLoader) (step_per_epoch : Z)
      (best : float) (ie : nat) (tr : trace Tensor) :
  epoch data_loaders step_per_epoch best ie tr
  = bind (before_checkpoint data_loaders step_per_epoch ie)
         (fun res => checkpoint (r_eval_accuracy res) best) tr.
Proof.
  unfold epoch, before_checkpoint. rewrite bind_assoc. apply bind_ext.
  intros train_loss tr1. rewrite bind_assoc. reflexivity.
Qed.

(** Events other than [torch.save] and [model.train()]. *)
Local Abbreviation quiet :=
  (fun e : event Tensor => is_save e = false /\ is_model_train e = false).

Ltac emits_steps :=
  repeat lazymatch goal with
  | |- emits _ (ret _) => apply emits_ret
  | |- emits _ (lift _) => apply emits_lift
  | |- emits _ (emit _) => apply emits_emit; split; reflexivity
  | |- emits _ (call_model _ _ _) =>
      apply emits_call_model; split; reflexivity
  | |- emits _ (bind _ _) => apply emits_bind; [|intros ?]
  | |- emits _ (for_each _ _ _) => apply emits_for_each; intros ? ?
  | |- emits _ (if _ then _ else _) => apply emits_if
  | |- emits _ (match ?x with _ => _ end) => destruct x
  | |- emits _ (mean _ _) => unfold mean
  end.

Lemma train_step_quiet (train_loss : float) (batch : Batch) :
  emits quiet (train_step train_loss batch).
Proof. unfold train_step. emits_steps. Qed.

Lemma eval_step_quiet (s : EvalSums) (batch : Batch) :
  emits quiet (eval_step s batch).
Proof. unfold eval_step. emits_steps. Qed.

Lemma evaluate_quiet (data_loaders : list DataLoader) :
  emits quiet (evaluate data_loaders).
Proof.
  unfold evaluate. emits_steps. apply eval_step_quiet.
Qed.

Lemma report_quiet (e : float * float * float * float) (train_loss : float)
      (step_per_epoch : Z) :
  emits quiet (report e train_loss step_per_epoch).
Proof. unfold report. emits_steps. Qed.

Lemma report_accuracy (l a p r train_loss : float) (step_per_epoch : Z)
      (tr tr' : trace Tensor) (res : EpochResult) :
  report (l, a, p, r) train_loss step_per_epoch tr = Ok (res, tr') ->
  r_eval_accuracy res = a
  /\ py_truediv train_loss step_per_epoch = Ok (r_train_loss res).
Proof.
  unfold report. intros H.
  apply bind_ok in H. destruct H as (t & tr1 & Ht & H).
  unfold lift in Ht. destruct (py_truediv _ _) as [t'|]; [|discriminate].
  injection Ht as -> ->.
  apply bind_ok in H. destruct H as (u & tr2 & _ & H).
  apply bind_ok in H. destruct H as (u' & tr3 & _ & H).
  injection H as <- _. split; reflexivity.
Qed.

Lemma step_events_quiet (tr : trace Tensor) (batch : Batch) :
  Forall quiet (step_events tr batch).
Proof.
  unfold step_events. destruct (1 <? n_gpu); cbn [app];
    repeat (constructor; [split; reflexivity|]); constructor.
Qed.

Lemma steps_trace_quiet (batches : list Batch) (tr : trace Tensor) :
  exists evs, steps_trace tr batches = tr ++ evs /\ Forall quiet evs.
Proof.
  revert tr. induction batches as [|b rest IH]; intros tr; cbn [steps_trace].
  - exists []. now rewrite app_nil_r.
  - destruct (IH (tr ++ step_events tr b)) as (evs & -> & Hq).
    exists (step_events tr b ++ evs). rewrite app_assoc. split; [reflexivity|].
    apply Forall_app. split; [apply step_events_quiet|exact Hq].
Qed.

(** An epoch up to its checkpoint decision starts with [model.train()],
    calls it no second time, never saves, and reports the accuracy that its
    evaluation returned. *)
Lemma before_checkpoint_runs (data_loaders : list DataLoader)
      (step_per_epoch : Z) (ie : nat) (tr tr1 : trace Tensor)
      (res : EpochResult) :
  before_checkpoint data_loaders step_per_epoch ie tr = Ok (res, tr1) ->
  exists evs l p r tr_e tr_e',
    tr1 = tr ++ model_train :: evs
    /\ Forall quiet evs
    /\ evaluate data_loaders tr_e = Ok ((l, r_eval_accuracy res, p, r), tr_e').
Proof.
  unfold before_checkpoint. intros H.
  apply bind_ok in H. destruct H as (train_loss & tr_a & Ht & H).
  pose proof (train_epoch_runs data_loaders step_per_epoch (Z.of_nat ie) tr)
    as Hr.
  cbv zeta in Hr.
  destruct (steps_trace_quiet
              (flat_map dl_iter (firstn 3 data_loaders))
              (tr ++ [model_train;
                      tqdm_enter step_per_epoch (Z.of_nat ie + 1)]))
    as (evs1 & E1 & H1).
  rewrite E1 in Hr. clear E1. rewrite Hr in Ht. clear Hr.
  injection Ht as _ <-.
  apply bind_ok in H. destruct H as ([[[l a] p] r] & tr_b & He & H).
  pose proof (evaluate_quiet data_loaders _ _ _ He) as (evs2 & -> & H2).
  pose proof (report_quiet _ _ _ _ _ _ H) as (evs3 & -> & H3).
  apply report_accuracy in H. destruct H as [<- _].
  exists (tqdm_enter step_per_epoch (Z.of_nat ie + 1)
            :: evs1 ++ [tqdm_exit] ++ evs2 ++ evs3), l, p, r.
  do 2 eexists.
  split; [|split; [|exact He]].
  - repeat rewrite <- app_assoc. reflexivity.
  - constructor; [split; reflexivity|].
    apply Forall_app. split; [exact H1|].
    apply Forall_app. split; [constructor; [split; reflexivity|constructor]|].
    apply Forall_app. split; assumption.
Qed.

Lemma epoch_runs (data_loaders : list DataLoader) (step_per_epoch : Z)
      (best best' : float) (ie : nat) (tr tr' : trace Tensor) :
  epoch data_loaders step_per_epoch best ie tr = Ok (best', tr') ->
  exists res evs,
    before_checkpoint data_loaders step_per_epoch ie tr = Ok (res, tr ++ evs)
    /\ Forall (fun e => is_save e = false) evs
    /\ (if F64.geb (r_eval_accuracy res) best
        then tr' = tr ++ evs ++ [torch_save] /\ best' = r_eval_accuracy res
        else tr' = tr ++ evs /\ best' = best).
Proof.
  rewrite epoch_decompose. intros H.
  apply bind_ok in H. destruct H as (res & tr1 & Hb & Hc).
  destruct (before_checkpoint_runs _ _ _ _ _ _ Hb)
    as (evs & l & p & r & tr_e & tr_e' & -> & Hq & _).
  exists res, (model_train :: evs). split; [exact Hb|]. split.
  - constructor; [reflexivity|]. revert Hq. apply Forall_impl. intros e []; auto.
  - rewrite checkpoint_runs in Hc.
    destruct (F64.geb (r_eval_accuracy res) best); injection Hc as <- <-.
    + split; [|reflexivity]. now rewrite <- app_assoc.
    + split; reflexivity.
Qed.

(** *** [best_accuracy] never decreases *)

Lemma epoch_best_monotone (data_loaders : list DataLoader)
      (step_per_epoch : Z) (best best' : float) (ie : nat)
      (tr tr' : trace Tensor) :
  F64.is_nan best = false ->
  epoch data_loaders step_per_epoch best ie tr = Ok (best', tr') ->
  F64.geb best' best = true /\ F64.is_nan best' = false.
Proof.
  intros Hn H. apply epoch_runs in H.
  destruct H as (res & evs & _ & _ & H).
  destruct (F64.geb (r_eval_accuracy res) best) eqn:E; destruct H as [_ ->].
  - split; [exact E|]. apply (leb_not_nan _ _ E).
  - split; [|exact Hn]. apply leb_refl. exact Hn.
Qed.

Lemma epochs_best_monotone (data_loaders : list DataLoader)
      (step_per_epoch : Z) (l : list nat) (best best' : float)
      (tr tr' : trace Tensor) :
  F64.is_nan best = false ->
  for_each (epoch data_loaders step_per_epoch) l best tr = Ok (best', tr') ->
  F64.geb best' best = true /\ F64.is_nan best' = false.
Proof.
  revert best tr. induction l as [|ie l IH]; intros best tr Hn H.
  - injection H as <- _. split; [apply leb_refl|]; exact Hn.
  - cbn [for_each] in H. apply bind_ok in H. destruct H as (b1 & tr1 & H1 & H).
    destruct (epoch_best_monotone _ _ _ _ _ _ _ Hn H1) as [Hge1 Hn1].
    destruct (IH _ _ Hn1 H) as [Hge Hn'].
    split; [|exact Hn']. unfold F64.geb in *. eapply leb_trans; eassumption.
Qed.

(** *** The accuracy of an evaluation is never negative *)

Lemma eval_batches_accuracy_pos_sign (batches : list Batch) :
  forall (tr tr' : trace Tensor) (vals : list (float * float * float * float)),
    eval_batches batches tr = Ok (vals, tr') ->
    Forall (fun b => len (b_labels b) < 2 ^ 63) batches ->
    Forall (fun v => pos_sign (v_accuracy v) = true) vals.
Proof.
  induction batches as [|b rest IH]; intros tr tr' vals H Hb.
  - injection H as <- _. constructor.
  - cbn [eval_batches] in H.
    apply bind_ok in H. destruct H as (v & tr1 & Hv & H).
    apply bind_ok in H. destruct H as (vs & tr2 & Hvs & H).
    injection H as <- _. inversion Hb as [|? ? Hb1 Hb2]; subst.
    constructor; [|eapply IH; eassumption].
    unfold eval_batch in Hv.
    apply bind_ok in Hv. destruct Hv as (out & tr3 & _ & Hv).
    apply bind_ok in Hv. destruct Hv as ([[a p] r] & tr4 & Ha & Hv).
    apply bind_ok in Hv. destruct Hv as (lm & tr5 & _ & Hv).
    injection Hv as <- _. unfold lift in Ha.
    destruct (accuracy _ _) as [[[a' p'] r']|] eqn:E; [|discriminate].
    injection Ha as -> -> -> _.
    eapply accuracy_pos_sign; eassumption.
Qed.

Lemma evaluate_accuracy_pos_sign (data_loaders : list DataLoader)
      (eval_loader : DataLoader) (tr tr' : trace Tensor) (l a p r : float) :
  index data_loaders 3 = Ok eval_loader ->
  0 < dl_batch_size eval_loader ->
  len (dl_dataset eval_loader) < 2 ^ 63 ->
  evaluate data_loaders tr = Ok ((l, a, p, r), tr') ->
  pos_sign a = true.
Proof.
  intros Hidx HK HN H. rewrite (evaluate_runs _ _ _ Hidx) in H.
  apply bind_ok in H. destruct H as ([] & tr1 & _ & H).
  apply bind_ok in H. destruct H as (vals & tr2 & Hv & H).
  apply eval_batches_accuracy_pos_sign in Hv.
  - unfold lift, batch_averages, py_truediv in H.
    pose proof (dl_len_bounds eval_loader HK) as Hlen.
    destruct (dl_len eval_loader =? 0) eqn:E0; [discriminate|].
    apply Z.eqb_neq in E0. injection H as _ <- _ _ _.
    apply div_pos_sign.
    + apply sum_pos_sign_from; [reflexivity|].
      apply Forall_map. exact Hv.
    + apply of_Z_finite. lia.
  - pose proof (dl_iter_batch_bound eval_loader) as Hb.
    revert Hb. apply Forall_impl. intros b Hle. lia.
Qed.

(** An epoch that starts from [best_accuracy = 0] and ends, ends with
    [torch.save]. *)
Lemma first_epoch_saves (data_loaders : list DataLoader)
      (eval_loader : DataLoader) (step_per_epoch : Z) (ie : nat)
      (best' : float) (tr tr' : trace Tensor) :
  index data_loaders 3 = Ok eval_loader ->
  0 < dl_batch_size eval_loader ->
  len (dl_dataset eval_loader) < 2 ^ 63 ->
  epoch data_loaders step_per_epoch F64.zero ie tr = Ok (best', tr') ->
  exists evs,
    tr' = tr ++ model_train :: evs ++ [torch_save]
    /\ Forall (fun e => is_model_train e = false) evs.
Proof.
  intros Hidx HK HN H. rewrite epoch_decompose in H.
  apply bind_ok in H. destruct H as (res & tr1 & Hb & Hc).
  destruct (before_checkpoint_runs _ _ _ _ _ _ Hb)
    as (evs & l & p & r & tr_e & tr_e' & -> & Hq & He).
  rewrite checkpoint_runs in Hc.
  rewrite pos_sign_geb_zero in Hc
    by (eapply evaluate_accuracy_pos_sign; eassumption).
  injection Hc as _ <-. exists evs. split.
  - rewrite <- app_assoc. reflexivity.
  - revert Hq. apply Forall_impl. intros e []; auto.
Qed.

Lemma for_each_extends {S X : Type} (body : S -> X -> M Tensor S)
      (l : list X) (s s' : S) (tr tr' : trace Tensor) :
  (forall s x, emits (fun _ => True) (body s x)) ->
  for_each body l s tr = Ok (s', tr') -> exists evs, tr' = tr ++ evs.
Proof.
  intros Hb H. destruct (emits_for_each _ _ body l s Hb _ _ _ H) as (evs & -> & _).
  now exists evs.
Qed.

Lemma epoch_extends (data_loaders : list DataLoader) (step_per_epoch : Z)
      (best : float) (ie : nat) :
  emits (fun _ => True) (epoch data_loaders step_per_epoch best ie).
Proof.
  intros tr best' tr' H. apply epoch_runs in H.
  destruct H as (res & evs & _ & _ & H).
  destruct (F64.geb _ _); destruct H as [-> _].
  - exists (evs ++ [torch_save]). split; [reflexivity|].
    apply Forall_forall. auto.
  - exists evs. split; [reflexivity|]. apply Forall_forall. auto.
Qed.

(** *** The properties of the loop *)

Lemma eval_batches_length (batches : list Batch) :
  forall (tr tr' : trace Tensor) (vals : list (float * float * float * float)),
    eval_batches batches tr = Ok (vals, tr') -> len vals = len batches.
Proof.
  induction batches as [|b rest IH]; intros tr tr' vals H.
  - injection H as <- _. reflexivity.
  - cbn [eval_batches] in H.
    apply bind_ok in H. destruct H as (v & tr1 & _ & H).
    apply bind_ok in H. destruct H as (vs & tr2 & Hvs & H).
    injection H as <- _. rewrite !len_cons. f_equal. eapply IH; eassumption.
Qed.

(** C8: the evaluation of a fold computes, for every batch in order, its
    scalar loss and the three metrics of [accuracy], and returns for each
    of the four the sum of the per-batch values divided by the number of
    batches of the fold (one value per batch, whatever the batch sizes). *)
Theorem evaluation_averages_per_batch (data_loaders : list DataLoader)
        (eval_loader : DataLoader) (tr : trace Tensor) :
  index data_loaders 3 = Ok eval_loader ->
  0 < dl_batch_size eval_loader ->
  evaluate data_loaders tr
  = (emit model_eval ;;
     vals <- eval_batches (dl_iter eval_loader) ;;
     lift (batch_averages vals (len (dl_iter eval_loader)))) tr
  /\ (forall tr1 tr2 vals,
         eval_batches (dl_iter eval_loader) tr1 = Ok (vals, tr2) ->
         len vals = len (dl_iter eval_loader)).
Proof.
  intros Hidx HK. split.
  - rewrite dl_iter_count by assumption. now apply evaluate_runs.
  - intros tr1 tr2 vals H. eapply eval_batches_length; eassumption.
Qed.

(** C9: a training step calls, in this order: the model on the batch (the
    forward pass that returns the loss); [loss.mean()] exactly when
    [n_gpu > 1]; [loss.backward()] on the resulting loss;
    [clip_grad_norm_] with the ceiling 1.0; [optimizer.step()];
    [scheduler.step()]; [model.zero_grad()]; the two progress-bar calls
    follow. The training phase of every epoch is made of such steps only,
    one per batch of the three training loaders, in order. *)
Theorem training_step_order :
  (forall (train_loss : float) (batch : Batch) (tr : trace Tensor),
      let loss0 := out_loss (model tr batch) in
      let loss := if 1 <? n_gpu then tensor_mean loss0 else loss0 in
      step_events tr batch
      = [model_call false batch]
        ++ (if 1 <? n_gpu then [loss_mean loss0] else [])
        ++ [loss_backward loss;
            clip_grad_norm_ (F64.of_Z 1);
            optimizer_step;
            scheduler_step;
            model_zero_grad;
            pbar_set_postfix loss;
            pbar_update 1]
      /\ train_step train_loss batch tr
         = Ok (F64.add train_loss (tensor_item loss),
               tr ++ step_events tr batch))
  /\ (forall (data_loaders : list DataLoader) (step_per_epoch ie : Z)
             (tr : trace Tensor),
         exists train_loss,
           train_epoch data_loaders step_per_epoch ie tr
           = Ok (train_loss,
                 steps_trace
                   (tr ++ [model_train; tqdm_enter step_per_epoch (ie + 1)])
                   (flat_map dl_iter (firstn 3 data_loaders))
                 ++ [tqdm_exit])).
Proof.
  split.
  - intros train_loss batch tr loss0 loss. split.
    + reflexivity.
    + apply train_step_runs.
  - intros data_loaders step_per_epoch ie tr. eexists. apply train_epoch_runs.
Qed.

(** C6: along the loop over the epochs, started as [main] starts it with
    [best_accuracy = 0], the value of [best_accuracy] after [k] epochs is
    greater than or equal to its value after [j] epochs whenever [j <= k];
    in particular every checkpoint decision leaves it greater than or equal
    to what it was. *)
Theorem best_accuracy_never_decreases (data_loaders : list DataLoader)
        (step_per_epoch : Z) (j k : nat) (tr0 trj trk : trace Tensor)
        (bj bk : float) :
  (j <= k)%nat ->
  epochs data_loaders step_per_epoch j F64.zero tr0 = Ok (bj, trj) ->
  epochs data_loaders step_per_epoch k F64.zero tr0 = Ok (bk, trk) ->
  F64.geb bk bj = true.
Proof.
  intros Hjk Hj Hk. unfold epochs in *.
  replace k with (j + (k - j))%nat in Hk by lia.
  rewrite seq_app, for_each_app in Hk.
  apply bind_ok in Hk. destruct Hk as (b & tr1 & Hj' & Hk).
  rewrite Hj in Hj'. injection Hj' as <- <-.
  apply epochs_best_monotone in Hj; [|reflexivity].
  apply epochs_best_monotone in Hk; [|apply Hj].
  apply Hk.
Qed.

(** C10: in a run of [main] that ends, with at least one epoch and an
    evaluation dataset of fewer than 2^63 examples, [torch.save] is called
    in the first epoch: the trace holds a [torch.save] before which
    [model.train()] was called exactly once. *)
Theorem first_epoch_always_saves (args : Args) (datasets : list Dataset)
        (best : float) (tr : trace Tensor) :
  run_main args datasets = Ok (best, tr) ->
  1 <= num_train_epochs args ->
  (forall ds, nth_error datasets 3 = Some ds -> len ds < 2 ^ 63) ->
  exists pre post,
    tr = pre ++ torch_save :: post
    /\ List.length (filter is_model_train pre) = 1%nat.
Proof.
  unfold run_main, main. intros H Hn Hds.
  apply bind_ok in H. destruct H as (dls & tr1 & Hdl & H).
  unfold lift in Hdl.
  destruct (make_data_loaders args datasets) as [dls'|] eqn:Edl; [|discriminate].
  injection Hdl as -> <-.
  destruct (make_data_loaders_ok _ _ _ Edl)
    as (d0 & d1 & d2 & d3 & rest & -> & HK & ->).
  apply bind_ok in H. destruct H as (spe & tr2 & Hs & H).
  cbn in Hs. injection Hs as <- <-.
  do 4 (apply bind_ok in H; destruct H as ([] & ? & He & H);
        injection He as <-).
  unfold epochs in H.
  destruct (Z.to_nat (num_train_epochs args)) as [|m] eqn:Em; [lia|].
  cbn [seq for_each] in H.
  apply bind_ok in H. destruct H as (b1 & tr3 & H1 & H).
  eapply first_epoch_saves in H1; [|reflexivity|exact HK|apply Hds; reflexivity].
  destruct H1 as (evs & -> & Hq).
  eapply for_each_extends in H; [|intros; apply epoch_extends].
  destruct H as (post & ->).
  match goal with
  | |- exists pre post', (?p ++ _) ++ _ = _ /\ _ =>
      exists (p ++ model_train :: evs), post
  end.
  split.
  - rewrite <- !app_assoc. cbn [app]. rewrite <- ?app_assoc. reflexivity.
  - rewrite filter_app. cbn [app filter is_model_train List.length]. f_equal.
    apply length_zero_iff_nil.
    induction Hq as [|e evs He _ IH]; [reflexivity|].
    cbn [filter]. now rewrite He.
Qed.

(** *** The trace of an epoch *)

Lemma eval_batches_of_app (tr1 tr2 : trace Tensor) :
  eval_batches_of (tr1 ++ tr2) = eval_batches_of tr1 ++ eval_batches_of tr2.
Proof.
  induction tr1 as [|e tr1 IH]; [reflexivity|].
  destruct e; cbn [app eval_batches_of]; try exact IH.
  destruct no_grad; cbn [app]; [now rewrite IH|exact IH].
Qed.

Lemma train_batches_of_app (tr1 tr2 : trace Tensor) :
  train_batches_of (tr1 ++ tr2) = train_batches_of tr1 ++ train_batches_of tr2.
Proof.
  induction tr1 as [|e tr1 IH]; [reflexivity|].
  destruct e; cbn [app train_batches_of]; try exact IH.
  destruct no_grad; cbn [app]; [exact IH|now rewrite IH].
Qed.

Lemma count_events_app (f : event Tensor -> bool) (tr1 tr2 : trace Tensor) :
  count_events f (tr1 ++ tr2) = (count_events f tr1 + count_events f tr2)%nat.
Proof.
  unfold count_events. now rewrite filter_app, length_app.
Qed.

Lemma count_events_none (f : event Tensor -> bool) (tr : trace Tensor) :
  Forall (fun e => f e = false) tr -> count_events f tr = 0%nat.
Proof.
  unfold count_events. induction 1 as [|e tr He _ IH]; [reflexivity|].
  cbn [filter]. now rewrite He.
Qed.

Lemma report_runs (l a p r train_loss : float) (step_per_epoch : Z)
      (tr : trace Tensor) :
  report (l, a, p, r) train_loss step_per_epoch tr
  = match py_truediv train_loss step_per_epoch with
    | Raise e => Raise e
    | Ok t =>
        let res := {| r_eval_loss := l; r_eval_accuracy := a;
                      r_eval_precision := p; r_eval_recall := r;
                      r_train_loss := t |} in
        Ok (res, tr ++ report_events res)
    end.
Proof.
  unfold report, bind, lift. destruct (py_truediv _ _) as [t|e]; [|reflexivity].
  cbn -[F64.add F64.div]. unfold emit, ret, report_events.
  repeat rewrite <- app_assoc. reflexivity.
Qed.

Lemma step_events_shape (tr : trace Tensor) (batch : Batch) :
  train_batches_of (step_events tr batch) = [batch]
  /\ eval_batches_of (step_events tr batch) = []
  /\ count_events is_backward (step_events tr batch) = 1%nat
  /\ count_events is_optimizer_step (step_events tr batch) = 1%nat
  /\ count_events is_scheduler_step (step_events tr batch) = 1%nat
  /\ Forall (fun e => silent e = true) (step_events tr batch).
Proof.
  unfold step_events. destruct (1 <? n_gpu); cbn [app];
    repeat split; repeat constructor.
Qed.

Lemma steps_trace_shape (batches : list Batch) (tr : trace Tensor) :
  exists evs,
    steps_trace tr batches = tr ++ evs
    /\ train_batches_of evs = batches
    /\ eval_batches_of evs = []
    /\ count_events is_backward evs = List.length batches
    /\ count_events is_optimizer_step evs = List.length batches
    /\ count_events is_scheduler_step evs = List.length batches
    /\ Forall (fun e => silent e = true) evs.
Proof.
  revert tr. induction batches as [|b rest IH]; intros tr; cbn [steps_trace].
  - exists []. rewrite app_nil_r. repeat split. constructor.
  - destruct (IH (tr ++ step_events tr b))
      as (evs & -> & Ht & He & Hb & Ho & Hs & Hq).
    destruct (step_events_shape tr b) as (Ht1 & He1 & Hb1 & Ho1 & Hs1 & Hq1).
    exists (step_events tr b ++ evs). rewrite app_assoc.
    rewrite train_batches_of_app, eval_batches_of_app, !count_events_app.
    rewrite Ht, He, Hb, Ho, Hs, Ht1, He1, Hb1, Ho1, Hs1.
    repeat split. apply Forall_app. auto.
Qed.

Lemma steps_losses_length (batches : list Batch) (tr : trace Tensor) :
  len (steps_losses tr batches) = len batches.
Proof.
  revert tr. induction batches as [|b rest IH]; intros tr; [reflexivity|].
  cbn [steps_losses]. rewrite !len_cons. now rewrite IH.
Qed.

Lemma eval_batches_trace (batches : list Batch) :
  forall (tr tr' : trace Tensor) vals,
    eval_batches batches tr = Ok (vals, tr') ->
    exists evs,
      tr' = tr ++ evs
      /\ Forall (fun e => inference_call e = true) evs
      /\ eval_batches_of evs = batches.
Proof.
  induction batches as [|b rest IH]; intros tr tr' vals H.
  - injection H as _ <-. exists []. rewrite app_nil_r. repeat split. constructor.
  - cbn [eval_batches] in H.
    apply bind_ok in H. destruct H as (v & tr1 & Hv & H).
    apply bind_ok in H. destruct H as (vs & tr2 & Hvs & H).
    injection H as _ <-.
    unfold eval_batch in Hv.
    apply bind_ok in Hv. destruct Hv as (out & tr3 & Hc & Hv).
    injection Hc as <- <-.
    apply bind_ok in Hv. destruct Hv as (tmp & tr4 & Ha & Hv).
    unfold lift in Ha. destruct (accuracy _ _); [|discriminate].
    injection Ha as _ <-.
    apply bind_ok in Hv. destruct Hv as (lm & tr5 & Hm & Hv).
    injection Hv as _ <-.
    unfold mean in Hm. apply bind_ok in Hm. destruct Hm as ([] & tr6 & He & Hm).
    injection He as <-. injection Hm as _ <-.
    destruct (IH _ _ _ Hvs) as (evs & -> & Hq & Hb).
    exists ([model_call true b; loss_mean (out_loss (model tr b))] ++ evs).
    repeat rewrite <- app_assoc. split; [reflexivity|]. split.
    + cbn [app]. repeat (constructor; [reflexivity|]). exact Hq.
    + cbn [app eval_batches_of]. now rewrite Hb.
Qed.

Lemma inference_call_silent (evs : trace Tensor) :
  Forall (fun e => inference_call e = true) evs ->
  Forall (fun e => silent e = true) evs.
Proof.
  apply Forall_impl. intros e. destruct e; cbn; try discriminate; auto.
Qed.

(** The calls of one epoch that ends: training, evaluation, the log lines,
    and [torch.save] when the accuracy is not below the best one. *)
Lemma epoch_trace (data_loaders : list DataLoader) (step_per_epoch : Z)
      (best best' : float) (ie : nat) (tr tr' : trace Tensor) :
  epoch data_loaders step_per_epoch best ie tr = Ok (best', tr') ->
  exists eval_loader evsT evsE res,
    index data_loaders 3 = Ok eval_loader
    /\ tr' = tr ++ [model_train;
                    tqdm_enter step_per_epoch (Z.of_nat ie + 1)]
                ++ evsT ++ [tqdm_exit] ++ [model_eval] ++ evsE
                ++ report_events res
                ++ (if F64.geb (r_eval_accuracy res) best
                    then [torch_save] else [])
    /\ steps_trace (tr ++ [model_train;
                           tqdm_enter step_per_epoch (Z.of_nat ie + 1)])
                   (flat_map dl_iter (firstn 3 data_loaders))
       = (tr ++ [model_train; tqdm_enter step_per_epoch (Z.of_nat ie + 1)])
         ++ evsT
    /\ Forall (fun e => inference_call e = true) evsE
    /\ eval_batches_of evsE = dl_iter eval_loader
    /\ best' = (if F64.geb (r_eval_accuracy res) best
                then r_eval_accuracy res else best)
    /\ py_truediv
         (F64.sum (steps_losses
                     (tr ++ [model_train;
                             tqdm_enter step_per_epoch (Z.of_nat ie + 1)])
                     (flat_map dl_iter (firstn 3 data_loaders))))
         step_per_epoch
       = Ok (r_train_loss res).
Proof.
  unfold epoch. intros H.
  apply bind_ok in H. destruct H as (train_loss & tr_a & Ht & H).
  pose proof (train_epoch_runs data_loaders step_per_epoch (Z.of_nat ie) tr)
    as Hr.
  cbv zeta in Hr.
  remember (flat_map dl_iter (firstn 3 data_loaders)) as batches eqn:Eb.
  destruct (steps_trace_shape batches
              (tr ++ [model_train;
                      tqdm_enter step_per_epoch (Z.of_nat ie + 1)]))
    as (evsT & E1 & _).
  rewrite E1 in Hr. rewrite Hr in Ht. injection Ht as <- <-. clear Hr.
  apply bind_ok in H. destruct H as ([[[l a] p] r] & tr_b & He & H).
  destruct (index data_loaders 3) as [eval_loader|e] eqn:Eidx.
  2:{ unfold evaluate, bind, emit, lift in He. rewrite Eidx in He. discriminate. }
  rewrite (evaluate_runs _ _ _ Eidx) in He.
  apply bind_ok in He. destruct He as ([] & tr1 & Hm & He).
  injection Hm as <-.
  apply bind_ok in He. destruct He as (vals & tr2 & Hv & He).
  unfold lift in He. destruct (batch_averages _ _); [|discriminate].
  injection He as -> <-.
  destruct (eval_batches_trace _ _ _ _ Hv) as (evsE & -> & HqE & HbE).
  apply bind_ok in H. destruct H as (res & tr3 & Hrep & Hc).
  rewrite report_runs in Hrep.
  destruct (py_truediv _ step_per_epoch) as [t|] eqn:Et; [|discriminate].
  cbv zeta in Hrep. injection Hrep as <- <-.
  rewrite checkpoint_runs in Hc. cbn [r_eval_accuracy] in Hc.
  exists eval_loader, evsT, evsE,
         {| r_eval_loss := l; r_eval_accuracy := a; r_eval_precision := p;
            r_eval_recall := r; r_train_loss := t |}.
  split; [reflexivity|]. cbn [r_eval_accuracy r_train_loss].
  split; [|split; [exact E1|split; [exact HqE|split; [exact HbE|split]]]].
  - destruct (F64.geb a best); injection Hc as _ <-;
      repeat rewrite <- app_assoc; reflexivity.
  - destruct (F64.geb a best); injection Hc as <- _; reflexivity.
  - reflexivity.
Qed.

(** *** The trace of the loop over the epochs *)

Lemma epochs_run_shape (data_loaders : list DataLoader)
      (eval_loader : DataLoader) (step_per_epoch : Z) (l : list nat) :
  index data_loaders 3 = Ok eval_loader ->
  forall (best best' : float) (tr tr' : trace Tensor),
    for_each (epoch data_loaders step_per_epoch) l best tr = Ok (best', tr') ->
    exists evs,
      tr' = tr ++ evs
      /\ run_shape (flat_map dl_iter (firstn 3 data_loaders))
                   (dl_iter eval_loader) (List.length l) best evs best'.
Proof.
  intros Hidx. induction l as [|ie l IH]; intros best best' tr tr' H.
  - injection H as <- <-. exists []. rewrite app_nil_r. split; [reflexivity|].
    constructor.
  - cbn [for_each] in H. apply bind_ok in H. destruct H as (b1 & tr1 & H1 & H).
    destruct (epoch_trace _ _ _ _ _ _ _ H1)
      as (el & evsT & evsE & res & Hidx' & -> & HT & HqE & HbE & -> & _).
    rewrite Hidx in Hidx'. injection Hidx' as <-.
    destruct (steps_trace_shape
                (flat_map dl_iter (firstn 3 data_loaders))
                (tr ++ [model_train;
                        tqdm_enter step_per_epoch (Z.of_nat ie + 1)]))
      as (evsT' & HT' & Ht & He & Hb & Ho & Hs & Hq).
    rewrite HT in HT'. apply app_inv_head in HT'. subst evsT'.
    destruct (IH _ _ _ _ H) as (rest & -> & Hrest).
    exists (epoch_events step_per_epoch ie evsT evsE res
              (F64.geb (r_eval_accuracy res) best) ++ rest).
    split.
    + unfold epoch_events. repeat rewrite <- app_assoc. reflexivity.
    + cbn [List.length]. now constructor.
Qed.

End Properties.

(** ** Reading the trace of a run *)

Section Readings.

Variable Tensor : Type.
Variables batches eval_batches : list Batch.

Lemma logged_app (key : string) (tr1 tr2 : trace Tensor) :
  logged key (tr1 ++ tr2) = logged key tr1 ++ logged key tr2.
Proof.
  induction tr1 as [|e tr1 IH]; [reflexivity|].
  destruct e; cbn [app logged]; try exact IH.
  destruct (String.eqb key0 key); cbn [app]; now rewrite IH.
Qed.

Lemma log_keys_app (tr1 tr2 : trace Tensor) :
  log_keys (tr1 ++ tr2) = log_keys tr1 ++ log_keys tr2.
Proof.
  induction tr1 as [|e tr1 IH]; [reflexivity|].
  destruct e; cbn [app log_keys]; try exact IH. now rewrite IH.
Qed.

Lemma logged_silent (key : string) (tr : trace Tensor) :
  Forall (fun e => silent e = true) tr -> logged key tr = [].
Proof.
  induction 1 as [|e tr He _ IH]; [reflexivity|].
  destruct e; cbn in He; try discriminate; exact IH.
Qed.

Lemma log_keys_silent (tr : trace Tensor) :
  Forall (fun e => silent e = true) tr -> log_keys tr = [].
Proof.
  induction 1 as [|e tr He _ IH]; [reflexivity|].
  destruct e; cbn in He; try discriminate; exact IH.
Qed.

Lemma epoch_log_silent (tr rest : trace Tensor) :
  Forall (fun e => silent e = true) tr ->
  epoch_log (tr ++ rest) = epoch_log rest.
Proof.
  induction 1 as [|e tr He _ IH]; [reflexivity|].
  destruct e; cbn in He; try discriminate; exact IH.
Qed.

Lemma silent_count (f : event Tensor -> bool) (tr : trace Tensor) :
  (forall e, silent e = true -> inference_call e = true -> f e = false) ->
  Forall (fun e => inference_call e = true) tr ->
  count_events f tr = 0%nat.
Proof.
  intros Hf H. apply count_events_none. revert H. apply Forall_impl.
  intros e He. apply Hf; [|exact He].
  destruct e; cbn in He; try discriminate; reflexivity.
Qed.

Lemma run_shape_starts (n : nat) (best best' : float) (evs : trace Tensor) :
  run_shape batches eval_batches n best evs best' ->
  evs = [] \/ exists rest, evs = model_train :: rest.
Proof.
  destruct 1; [now left|right]. unfold epoch_events. cbn [app]. eauto.
Qed.

Lemma saved_before_next_start (evs : trace Tensor) :
  evs = [] \/ (exists rest, evs = model_train :: rest) ->
  saved_before_next evs = false.
Proof.
  intros [->|(rest & ->)]; reflexivity.
Qed.

(** The accuracies logged and the saves follow the checkpoint rule. *)
Lemma run_shape_policy (n : nat) (best best' : float) (evs : trace Tensor) :
  run_shape batches eval_batches n best evs best' ->
  let accs := logged "eval_accuracy" evs in
  epoch_log evs = checkpoint_policy best accs
  /\ best' = policy_best best accs
  /\ List.length accs = n.
Proof.
  induction 1 as [best|n best best' spe ie evsT evsE rest res
                  Ht He Hb Ho Hs Hq HqE HbE Hrest IH]; [repeat split|].
  cbv zeta in *. destruct IH as (IH1 & IH2 & IH3).
  pose proof (inference_call_silent _ _ HqE) as HqE'.
  apply run_shape_starts in Hrest.
  unfold epoch_events.
  repeat rewrite logged_app.
  rewrite (logged_silent _ evsT Hq), (logged_silent _ evsE HqE').
  repeat rewrite <- app_assoc.
  cbn [app epoch_log]. rewrite epoch_log_silent by assumption.
  cbn [app epoch_log]. rewrite epoch_log_silent by assumption.
  destruct (F64.geb (r_eval_accuracy res) best) eqn:Eg;
    cbn [logged report_events app String.eqb Ascii.eqb Bool.eqb
         checkpoint_policy policy_best List.length epoch_log
         saved_before_next];
    rewrite ?Eg; rewrite <- IH1.
  - split; [reflexivity|]. split; [exact IH2|now rewrite IH3].
  - rewrite saved_before_next_start by assumption.
    split; [reflexivity|]. split; [exact IH2|now rewrite IH3].
Qed.

(** What is counted and replayed over the epochs. *)
Lemma run_shape_counts (n : nat) (best best' : float) (evs : trace Tensor) :
  run_shape batches eval_batches n best evs best' ->
  count_events is_backward evs = (n * List.length batches)%nat
  /\ count_events is_optimizer_step evs = (n * List.length batches)%nat
  /\ count_events is_scheduler_step evs = (n * List.length batches)%nat
  /\ count_events is_model_train evs = n
  /\ train_batches_of evs = concat (repeat batches n)
  /\ eval_batches_of evs = concat (repeat eval_batches n)
  /\ log_keys evs
     = concat (repeat ["eval_accuracy"; "eval_loss"; "eval_precision";
                       "eval_recall"; "train_loss"]%string n).
Proof.
  induction 1 as [best|n best best' spe ie evsT evsE rest res
                  Ht He Hb Ho Hs Hq HqE HbE Hrest IH]; [repeat split|].
  destruct IH as (IH1 & IH2 & IH3 & IH4 & IH5 & IH6 & IH7).
  pose proof (inference_call_silent _ _ HqE) as HqE'.
  assert (Htb : train_batches_of evsE = []).
  { clear - HqE. induction HqE as [|e evs He _ IH]; [reflexivity|].
    destruct e; cbn in He; try discriminate; cbn [train_batches_of]; auto.
    destruct no_grad; [exact IH|discriminate]. }
  unfold epoch_events.
  repeat rewrite count_events_app.
  repeat rewrite train_batches_of_app. repeat rewrite eval_batches_of_app.
  repeat rewrite log_keys_app.
  rewrite Hb, Ho, Hs, Ht, He, HbE, Htb, IH1, IH2, IH3, IH4, IH5, IH6, IH7.
  rewrite (count_events_none _ is_model_train evsT)
    by (revert Hq; apply Forall_impl; intros e; destruct e; cbn; congruence).
  rewrite !(silent_count _ evsE) by
    (assumption || (intros e _; destruct e; cbn; congruence)).
  rewrite (log_keys_silent evsT Hq), (log_keys_silent evsE HqE').
  destruct (F64.geb (r_eval_accuracy res) best);
    cbn [repeat concat count_events filter is_backward is_optimizer_step
         is_scheduler_step is_model_train List.length report_events
         train_batches_of eval_batches_of log_keys app Nat.add Nat.mul];
    rewrite ?app_nil_r; repeat split; lia.
Qed.

End Readings.

(** ** Whole runs of [main] *)

Section Runs.

Variable Tensor : Type.
Variable tensor_mean : Tensor -> Tensor.
Variable tensor_item : Tensor -> float.
Variable model : trace Tensor -> Batch -> ModelOutput Tensor.
Variable n_gpu : Z.

Local Abbreviation run_main := (run_main tensor_mean tensor_item model n_gpu).
Local Abbreviation evaluate := (evaluate tensor_mean tensor_item model).
Local Abbreviation epoch := (epoch tensor_mean tensor_item model n_gpu).
Local Abbreviation train_epoch :=
  (train_epoch tensor_mean tensor_item model n_gpu).
Local Abbreviation steps_losses :=
  (steps_losses tensor_mean tensor_item model n_gpu).
Local Abbreviation epochs := (epochs tensor_mean tensor_item model n_gpu).
Local Abbreviation eval_batches :=
  (eval_batches tensor_mean tensor_item model).

(** A run that ends: the loaders were built, and after the prelude the
    trace is that of [num_train_epochs] epochs from [best_accuracy = 0]. *)
Lemma main_run_shape (args : Args) (datasets : list Dataset)
      (best : float) (tr : trace Tensor) :
  run_main args datasets = Ok (best, tr) ->
  exists data_loaders eval_loader step_per_epoch evs,
    make_data_loaders args datasets = Ok data_loaders
    /\ index data_loaders 3 = Ok eval_loader
    /\ step_per_epoch_of data_loaders = Ok step_per_epoch
    /\ tr = prelude args step_per_epoch ++ evs
    /\ run_shape (flat_map dl_iter (firstn 3 data_loaders))
                 (dl_iter eval_loader)
                 (Z.to_nat (num_train_epochs args)) F64.zero evs best.
Proof.
  unfold run_main, main. intros H.
  apply bind_ok in H. destruct H as (dls & tr1 & Hdl & H).
  unfold lift in Hdl.
  destruct (make_data_loaders args datasets) as [dls'|] eqn:Edl; [|discriminate].
  injection Hdl as -> <-.
  destruct (make_data_loaders_ok _ _ _ Edl)
    as (d0 & d1 & d2 & d3 & rest & -> & HK & ->).
  apply bind_ok in H. destruct H as (spe & tr2 & Hs & H).
  unfold lift in Hs.
  destruct (step_per_epoch_of _) as [spe'|] eqn:Es; [|discriminate].
  injection Hs as -> <-.
  do 4 (apply bind_ok in H; destruct H as ([] & ? & He & H);
        injection He as <-).
  unfold epochs in H.
  eapply epochs_run_shape in H; [|reflexivity].
  destruct H as (evs & -> & Hshape). rewrite length_seq in Hshape.
  do 4 eexists. split; [reflexivity|]. split; [reflexivity|].
  split; [exact Es|]. split; [reflexivity|exact Hshape].
Qed.

(** In every run that ends, the accuracies logged by the epochs and the
    calls of [torch.save] follow the checkpoint rule started at 0: an epoch
    saves exactly when its accuracy is greater than or equal to the best
    accuracy so far. There is one logged accuracy per epoch, and the final
    [best_accuracy] is greater than or equal to every logged accuracy that
    is not [nan], and is 0 or one of the logged accuracies. *)
Theorem run_follows_checkpoint_policy (args : Args) (datasets : list Dataset)
        (best : float) (tr : trace Tensor) :
  run_main args datasets = Ok (best, tr) ->
  let accs := logged "eval_accuracy" tr in
  epoch_log tr = checkpoint_policy F64.zero accs
  /\ best = policy_best F64.zero accs
  /\ List.length accs = Z.to_nat (num_train_epochs args)
  /\ (forall a, In a accs -> F64.is_nan a = false -> F64.geb best a = true)
  /\ (best = F64.zero \/ In best accs).
Proof.
  intros H accs. apply main_run_shape in H.
  destruct H as (dls & el & spe & evs & _ & _ & _ & Htr & Hshape).
  apply run_shape_policy in Hshape. cbv zeta in Hshape.
  destruct Hshape as (H1 & H2 & H3).
  assert (Ha : accs = logged "eval_accuracy" evs) by (subst accs tr; reflexivity).
  assert (He : epoch_log tr = epoch_log evs) by (subst tr; reflexivity).
  rewrite Ha, He. split; [exact H1|]. split; [exact H2|]. split; [exact H3|].
  rewrite H2. split.
  - intros a Hin Hn. now apply policy_best_ge.
  - apply policy_best_in.
Qed.

(** In every run that ends, the numbers of backward passes, of optimizer
    steps and of scheduler steps are each the number of epochs times the
    number of batches of the three training loaders, [model.train()] is
    called once per epoch, and the scheduler was created for
    [len(data_loaders[0]) * 3 * num_train_epochs] training steps, with that
    number times [warmup_prop] as its warmup steps. *)
Theorem run_step_counts (args : Args) (datasets : list Dataset)
        (data_loaders : list DataLoader) (best : float) (tr : trace Tensor) :
  run_main args datasets = Ok (best, tr) ->
  make_data_loaders args datasets = Ok data_loaders ->
  let n := Z.to_nat (num_train_epochs args) in
  let steps :=
    (n * List.length (flat_map dl_iter (firstn 3 data_loaders)))%nat in
  count_events is_backward tr = steps
  /\ count_events is_optimizer_step tr = steps
  /\ count_events is_scheduler_step tr = steps
  /\ count_events is_model_train tr = n
  /\ exists step_per_epoch,
       step_per_epoch_of data_loaders = Ok step_per_epoch
       /\ In (get_linear_schedule_with_warmup
                (F64.mul (F64.of_Z (step_per_epoch * num_train_epochs args))
                         (warmup_prop args))
                (step_per_epoch * num_train_epochs args)) tr.
Proof.
  intros H Hdl n steps. apply main_run_shape in H.
  destruct H as (dls & el & spe & evs & Hdl' & _ & Hspe & -> & Hshape).
  rewrite Hdl in Hdl'. injection Hdl' as <-.
  apply run_shape_counts in Hshape.
  destruct Hshape as (H1 & H2 & H3 & H4 & _).
  rewrite !count_events_app, H1, H2, H3, H4.
  repeat split; try reflexivity.
  exists spe. split; [exact Hspe|]. apply in_or_app. left. left. reflexivity.
Qed.

(** In every run that ends, each epoch trains on the same batches, those of
    loaders 0, 1 and 2 in this order, and evaluates, without gradients, on
    the batches of loader 3; no other batch is given to the model. *)
Theorem run_replays_batches (args : Args) (datasets : list Dataset)
        (data_loaders : list DataLoader) (eval_loader : DataLoader)
        (best : float) (tr : trace Tensor) :
  run_main args datasets = Ok (best, tr) ->
  make_data_loaders args datasets = Ok data_loaders ->
  index data_loaders 3 = Ok eval_loader ->
  let n := Z.to_nat (num_train_epochs args) in
  train_batches_of tr
  = concat (repeat (flat_map dl_iter (firstn 3 data_loaders)) n)
  /\ eval_batches_of tr = concat (repeat (dl_iter eval_loader) n).
Proof.
  intros H Hdl Hidx n. apply main_run_shape in H.
  destruct H as (dls & el & spe & evs & Hdl' & Hidx' & _ & -> & Hshape).
  rewrite Hdl in Hdl'. injection Hdl' as <-.
  rewrite Hidx in Hidx'. injection Hidx' as <-.
  apply run_shape_counts in Hshape.
  destruct Hshape as (_ & _ & _ & _ & H5 & H6 & _).
  rewrite train_batches_of_app, eval_batches_of_app, H5, H6. split; reflexivity.
Qed.

(** In every run that ends, each epoch logs its five results once, in the
    order of their keys. *)
Theorem run_log_keys (args : Args) (datasets : list Dataset)
        (best : float) (tr : trace Tensor) :
  run_main args datasets = Ok (best, tr) ->
  log_keys tr
  = concat (repeat ["eval_accuracy"; "eval_loss"; "eval_precision";
                    "eval_recall"; "train_loss"]%string
                   (Z.to_nat (num_train_epochs args))).
Proof.
  intros H. apply main_run_shape in H.
  destruct H as (dls & el & spe & evs & _ & _ & _ & -> & Hshape).
  apply run_shape_counts in Hshape.
  destruct Hshape as (_ & _ & _ & _ & _ & _ & H7).
  rewrite log_keys_app, H7. reflexivity.
Qed.

(** An evaluation that returns has called, after [model.eval()], only the
    model under [no_grad] and [loss.mean()], once each per batch of loader
    3 in order: no backward pass, no optimizer or scheduler step, no
    [torch.save]. *)
Theorem evaluation_is_inference_only (data_loaders : list DataLoader)
        (eval_loader : DataLoader) (tr tr' : trace Tensor)
        (v : float * float * float * float) :
  index data_loaders 3 = Ok eval_loader ->
  evaluate data_loaders tr = Ok (v, tr') ->
  exists evs,
    tr' = tr ++ model_eval :: evs
    /\ Forall (fun e => inference_call e = true) evs
    /\ eval_batches_of evs = dl_iter eval_loader.
Proof.
  intros Hidx H. rewrite (evaluate_runs _ _ _ _ _ _ _ Hidx) in H.
  apply bind_ok in H. destruct H as ([] & tr1 & Hm & H). injection Hm as <-.
  apply bind_ok in H. destruct H as (vals & tr2 & Hv & H).
  unfold lift in H. destruct (batch_averages _ _); [|discriminate].
  injection H as _ <-.
  apply eval_batches_trace in Hv. destruct Hv as (evs & -> & Hq & Hb).
  exists evs. rewrite <- app_assoc. split; [reflexivity|].
  split; [exact Hq|exact Hb].
Qed.

Lemma main_runs_epochs (args : Args) (datasets : list Dataset)
      (data_loaders : list DataLoader) (step_per_epoch : Z) :
  make_data_loaders args datasets = Ok data_loaders ->
  step_per_epoch_of data_loaders = Ok step_per_epoch ->
  run_main args datasets
  = epochs data_loaders step_per_epoch (Z.to_nat (num_train_epochs args))
           F64.zero (prelude args step_per_epoch).
Proof.
  intros Hdl Hs. unfold run_main, main, bind, lift, emit.
  rewrite Hdl, Hs. reflexivity.
Qed.

(** When the three training loaders have equally many batches, the
    [train_loss] an epoch logs is the sum of the scalar losses of its
    training steps divided by their number. *)
Theorem train_loss_over_equal_folds (data_loaders : list DataLoader)
        (d0 d1 d2 : DataLoader) (step_per_epoch : Z) (best best' : float)
        (ie : nat) (tr tr' : trace Tensor) :
  firstn 3 data_loaders = [d0; d1; d2] ->
  0 < dl_batch_size d0 -> 0 < dl_batch_size d1 -> 0 < dl_batch_size d2 ->
  dl_len d1 = dl_len d0 -> dl_len d2 = dl_len d0 ->
  step_per_epoch = dl_len d0 * 3 ->
  epoch data_loaders step_per_epoch best ie tr = Ok (best', tr') ->
  let losses :=
    steps_losses (tr ++ [model_train;
                         tqdm_enter step_per_epoch (Z.of_nat ie + 1)])
                 (dl_iter d0 ++ dl_iter d1 ++ dl_iter d2) in
  exists evs,
    tr' = tr ++ evs
    /\ len losses = len (dl_iter d0) + len (dl_iter d1) + len (dl_iter d2)
    /\ logged "train_loss" evs
       = [F64.div (F64.sum losses) (F64.of_Z (len losses))].
Proof.
  intros Hf H0 H1 H2 E1 E2 Hs H losses.
  destruct (epoch_trace _ _ _ _ _ _ _ _ _ _ _ _ H)
    as (el & evsT & evsE & res & _ & -> & HT & HqE & _ & _ & Hdiv).
  rewrite Hf in HT, Hdiv. cbn [flat_map] in HT, Hdiv.
  rewrite app_nil_r in HT, Hdiv. fold losses in Hdiv.
  assert (Hlen : len losses
                 = len (dl_iter d0) + len (dl_iter d1) + len (dl_iter d2)).
  { unfold losses. rewrite steps_losses_length, !len_app. lia. }
  assert (Hspe : step_per_epoch = len losses).
  { rewrite Hlen, !dl_iter_count by assumption. lia. }
  destruct (steps_trace_shape _ tensor_mean model n_gpu
              (dl_iter d0 ++ dl_iter d1 ++ dl_iter d2)
              (tr ++ [model_train;
                      tqdm_enter step_per_epoch (Z.of_nat ie + 1)]))
    as (evsT' & HT' & _ & _ & _ & _ & _ & Hq).
  rewrite HT in HT'. apply app_inv_head in HT'. subst evsT'.
  eexists. split; [reflexivity|]. split; [exact Hlen|].
  unfold py_truediv in Hdiv. destruct (step_per_epoch =? 0); [discriminate|].
  injection Hdiv as Hdiv. rewrite Hspe in Hdiv.
  repeat rewrite logged_app.
  rewrite (logged_silent _ _ evsT Hq),
          (logged_silent _ _ evsE (inference_call_silent _ _ HqE)).
  destruct (F64.geb (r_eval_accuracy res) best);
    cbn [logged report_events app String.eqb Ascii.eqb Bool.eqb];
    now rewrite Hdiv.
Qed.

(** How [main] starts: with fewer than four datasets it raises IndexError;
    with four and a batch size that is not positive it raises ValueError;
    with no epoch to run it makes no training step, no evaluation and no
    save, and ends with [best_accuracy = 0]. *)
Theorem main_startup (args : Args) (datasets : list Dataset) :
  ((List.length datasets < 4)%nat ->
   run_main args datasets = Raise IndexError)
  /\ ((4 <= List.length datasets)%nat -> train_batch_size args <= 0 ->
      run_main args datasets = Raise ValueError)
  /\ ((4 <= List.length datasets)%nat -> 0 < train_batch_size args ->
      num_train_epochs args <= 0 ->
      exists step_per_epoch,
        run_main args datasets = Ok (F64.zero, prelude args step_per_epoch)).
Proof.
  split; [|split].
  - intros Hlen. unfold run_main, main, bind, lift, make_data_loaders.
    destruct datasets as [|d0 [|d1 [|d2 [|d3 rest]]]];
      cbn in Hlen |- *; try reflexivity; lia.
  - intros Hlen HK. unfold run_main, main, bind, lift, make_data_loaders.
    destruct datasets as [|d0 [|d1 [|d2 [|d3 rest]]]];
      cbn in Hlen; try lia.
    cbn. unfold mkDataLoader.
    destruct (Z.leb_spec (train_batch_size args) 0); [reflexivity|lia].
  - intros Hlen HK Hn.
    destruct datasets as [|d0 [|d1 [|d2 [|d3 rest]]]];
      cbn in Hlen; try lia.
    eexists. erewrite main_runs_epochs.
    + unfold epochs. replace (Z.to_nat (num_train_epochs args)) with 0%nat by lia.
      reflexivity.
    + unfold make_data_loaders. cbn. unfold mkDataLoader.
      destruct (Z.leb_spec (train_batch_size args) 0); [lia|]. cbn. reflexivity.
    + reflexivity.
Qed.

(** With at least one epoch to run: when the evaluation fold is empty the
    run raises ZeroDivisionError (at the averages of the first epoch);
    when the first training fold is empty the run never ends normally,
    whatever the other folds hold. *)
Theorem empty_folds_raise (args : Args) (d0 d1 d2 d3 : Dataset)
        (rest : list Dataset) :
  0 < train_batch_size args ->
  1 <= num_train_epochs args ->
  (d3 = [] ->
   run_main args (d0 :: d1 :: d2 :: d3 :: rest) = Raise ZeroDivisionError)
  /\ (d0 = [] ->
      exists e, run_main args (d0 :: d1 :: d2 :: d3 :: rest) = Raise e).
Proof.
  intros HK Hn.
  set (dl := fun ds => {| dl_dataset := ds;
                          dl_batch_size := train_batch_size args |}).
  assert (Hdl : make_data_loaders args (d0 :: d1 :: d2 :: d3 :: rest)
                = Ok [dl d0; dl d1; dl d2; dl d3]).
  { unfold make_data_loaders. cbn. unfold mkDataLoader.
    destruct (Z.leb_spec (train_batch_size args) 0); [lia|]. reflexivity. }
  assert (Hrun : run_main args (d0 :: d1 :: d2 :: d3 :: rest)
                 = epochs [dl d0; dl d1; dl d2; dl d3] (dl_len (dl d0) * 3)
                          (Z.to_nat (num_train_epochs args)) F64.zero
                          (prelude args (dl_len (dl d0) * 3)))
    by (now apply main_runs_epochs).
  assert (Hep : forall dls spe tr,
             epoch dls spe F64.zero 0 tr
             = bind (evaluate dls)
                    (fun e =>
                       res <- report e
                                (F64.sum
                                   (steps_losses
                                      (tr ++ [model_train;
                                              tqdm_enter spe (Z.of_nat 0 + 1)])
                                      (flat_map dl_iter (firstn 3 dls))))
                                spe ;;
                       checkpoint (r_eval_accuracy res) F64.zero)
                    (steps_trace tensor_mean model n_gpu
                       (tr ++ [model_train; tqdm_enter spe (Z.of_nat 0 + 1)])
                       (flat_map dl_iter (firstn 3 dls)) ++ [tqdm_exit])).
  { intros dls spe tr. unfold epoch. unfold bind at 1.
    pose proof (train_epoch_runs _ tensor_mean tensor_item model n_gpu
                  dls spe (Z.of_nat 0) tr) as Ht.
    cbv zeta in Ht. rewrite Ht. reflexivity. }
  assert (E : forall K, 0 < K ->
               dl_len {| dl_dataset := []; dl_batch_size := K |} = 0).
  { intros K HK'. unfold dl_len. cbn [dl_dataset dl_batch_size].
    change (@len Example []) with 0. apply Z.div_small. lia. }
  split; intros ->.
  - rewrite Hrun. unfold epochs.
    destruct (Z.to_nat (num_train_epochs args)) as [|m] eqn:Em; [lia|].
    cbn [seq for_each]. unfold bind at 1. rewrite Hep.
    unfold bind at 1.
    rewrite (evaluate_runs _ tensor_mean tensor_item model
               [dl d0; dl d1; dl d2; dl []] (dl []) _ eq_refl).
    unfold bind, emit, lift, ret, batch_averages, py_truediv, dl.
    rewrite E by exact HK. reflexivity.
  - rewrite Hrun. unfold epochs.
    destruct (Z.to_nat (num_train_epochs args)) as [|m] eqn:Em; [lia|].
    cbn [seq for_each]. unfold bind at 1. rewrite Hep.
    unfold bind at 1.
    match goal with
    | |- context [evaluate ?d ?t] =>
        destruct (evaluate d t) as [[[[[l a] p] r] tr2]|e];
        [|eexists; reflexivity]
    end.
    unfold bind at 1. rewrite report_runs. unfold py_truediv, dl.
    rewrite E by exact HK. eexists. reflexivity.
Qed.

End Runs.


(** * The claims on concrete runs, counterexamples and witnesses *)

(** ** C1: the divisor of [train_loss] *)

(** C1, at three training folds of 1, 2 and 2 batches: the run makes five
    training steps, each with loss 1.0, and logs as [train_loss] the sum of
    the five losses divided by 3 (the batch count of the first fold times
    three), which is not that sum divided by the five training batches. *)
Theorem train_loss_divisor_unequal_folds :
  exists best tr,
    run_main scalar_mean scalar_item perfect_model 1
             (args_of 1 1 1) unequal_folds = Ok (best, tr)
    /\ step_losses_of scalar_item tr = repeat (F64.of_Z 1) 5
    /\ logged "train_loss" tr
       = [F64.div (F64.sum (step_losses_of scalar_item tr)) (F64.of_Z 3)]
    /\ F64.div (F64.sum (step_losses_of scalar_item tr)) (F64.of_Z 3)
       <> F64.div (F64.sum (step_losses_of scalar_item tr))
                  (F64.of_Z (len (step_losses_of scalar_item tr))).
Proof.
  eexists. eexists. split; [vm_compute; reflexivity|].
  split; [vm_compute; reflexivity|].
  split; [vm_compute; reflexivity|].
  vm_compute. discriminate.
Qed.

(** ** C2: the batch size of the evaluation fold *)

(** C2, at [--train_batch_size 4 --eval_batch_size 2] and folds of four
    examples: the evaluation loader is built with batch size 4, and the one
    batch the model is evaluated on has four examples, more than
    [eval_batch_size]. *)
Theorem eval_batch_size_ignored :
  let args := args_of 4 2 1 in
  exists data_loaders eval_loader best tr,
    make_data_loaders args folds_of_four = Ok data_loaders
    /\ index data_loaders 3 = Ok eval_loader
    /\ dl_batch_size eval_loader = 4
    /\ map batch_size_of (dl_iter eval_loader) = [4]
    /\ run_main scalar_mean scalar_item perfect_model 1 args folds_of_four
       = Ok (best, tr)
    /\ map batch_size_of (eval_batches_of tr) = [4]
    /\ eval_batch_size args = 2.
Proof.
  intro args. do 4 eexists.
  split; [vm_compute; reflexivity|].
  split; [vm_compute; reflexivity|].
  split; [vm_compute; reflexivity|].
  split; [vm_compute; reflexivity|].
  split; [vm_compute; reflexivity|].
  split; vm_compute; reflexivity.
Qed.

(** ** C3: precision and recall *)

(** C3 as stated fails with three classes: for the scores
    [[0,0,1],[0,1,0]] and the labels [2,1] the predicted classes are [2,1];
    one example is predicted positive, one is truly positive, and it is the
    same one, so precision and recall as the claim defines them are 1/1;
    [accuracy] returns 1/3 for both, dividing by the sums of the class
    indices. *)
Lemma precision_recall_three_classes_counterexample :
  let logits := [[F64.of_Z 0; F64.of_Z 0; F64.of_Z 1];
                 [F64.of_Z 0; F64.of_Z 1; F64.of_Z 0]] in
  let labels := [2; 1] in
  let outputs := [2; 1] in
  np_argmax_axis1 logits = Ok outputs
  /\ accuracy logits labels
     = Ok (F64.of_Z 1, np_true_divide 1 3, np_true_divide 1 3)
  /\ np_true_divide (true_positive outputs labels)
                    (predicted_positive outputs) = F64.of_Z 1
  /\ np_true_divide (true_positive outputs labels)
                    (actual_positive labels) = F64.of_Z 1
  /\ np_true_divide 1 3 <> F64.of_Z 1.
Proof.
  cbv zeta. repeat split; try (vm_compute; reflexivity).
  vm_compute. discriminate.
Qed.

(** C3, amended: with one label per row and fewer than 2^63 rows,
    [accuracy] raises ZeroDivisionError on an empty batch and returns on
    every other one; the precision it returns is (predicted 1 and true 1) /
    (predicted 1) whenever every predicted class (argmax index, ties to the
    lowest index) is 0 or 1, whatever the labels, and the recall it returns
    is (predicted 1 and true 1) / (true 1) whenever every true label is 0 or
    1, whatever the predicted classes and the number of score columns; the
    divisions are numpy's. *)
Theorem precision_recall_two_classes
        (logits : list (list float)) (labels outputs : list Z) :
  np_argmax_axis1 logits = Ok outputs ->
  len labels = len outputs ->
  len outputs < 2 ^ 63 ->
  (outputs = [] -> accuracy logits labels = Raise ZeroDivisionError)
  /\ (outputs <> [] ->
      exists precision recall,
        accuracy logits labels
        = Ok (np_true_divide (correct outputs labels) (len outputs),
              precision, recall)
        /\ (Forall binary outputs ->
            precision = np_true_divide (true_positive outputs labels)
                                       (predicted_positive outputs))
        /\ (Forall binary labels ->
            recall = np_true_divide (true_positive outputs labels)
                                    (actual_positive labels))).
Proof.
  intros Harg Hlen Hb.
  rewrite (accuracy_same_shape logits labels outputs Harg Hlen Hb).
  split.
  - intros ->. reflexivity.
  - intros Hne.
    assert (E : (len outputs =? 0) = false).
    { apply Z.eqb_neq. destruct outputs as [|o os]; [congruence|].
      rewrite len_cons. pose proof (len_nonneg os). lia. }
    rewrite E. do 2 eexists. split; [reflexivity|]. split.
    + intros Ho. rewrite (np_sum_binary outputs Ho Hb). reflexivity.
    + intros Hl. rewrite (np_sum_binary labels Hl) by lia. reflexivity.
Qed.

(** Three examples scored over three classes: the predicted classes are
    [1,0,1] and the labels [1,2,1], one of them neither 0 nor 1; the
    precision is 2/2.  Two examples predicted [2,1] with the labels [1,1]:
    the recall is 1/2. *)
Lemma precision_recall_two_classes_witness :
  let row0 := [F64.of_Z 1; F64.of_Z 0; F64.of_Z 0] in
  let row1 := [F64.of_Z 0; F64.of_Z 1; F64.of_Z 0] in
  let row2 := [F64.of_Z 0; F64.of_Z 0; F64.of_Z 1] in
  (exists recall,
     accuracy [row1; row0; row1] [1; 2; 1]
     = Ok (np_true_divide 2 3, np_true_divide 2 2, recall))
  /\ (exists precision,
        accuracy [row2; row1] [1; 1]
        = Ok (np_true_divide 1 2, precision, np_true_divide 1 2)).
Proof.
  intros row0 row1 row2. split.
  - destruct (precision_recall_two_classes [row1; row0; row1] [1; 2; 1]
                [1; 0; 1]) as [_ H].
    + vm_compute. reflexivity.
    + reflexivity.
    + reflexivity.
    + destruct H as (p & r & Hacc & Hp & _); [discriminate|].
      exists r. rewrite Hacc, Hp; [reflexivity|].
      repeat constructor; (now left) || (now right).
  - destruct (precision_recall_two_classes [row2; row1] [1; 1] [2; 1])
      as [_ H].
    + vm_compute. reflexivity.
    + reflexivity.
    + reflexivity.
    + destruct H as (p & r & Hacc & _ & Hr); [discriminate|].
      exists p. rewrite Hacc, Hr; [reflexivity|].
      repeat constructor; now right.
Defined.

(** ** C4: zero denominators *)

(** C4 as stated fails with three classes: for the scores [[0,0,1]] and the
    label [0] the predicted class is 2, no example is predicted positive,
    and [accuracy] returns the precision 0/2 = 0.0, neither an error nor
    [nan]. *)
Lemma zero_denominator_three_classes_counterexample :
  let logits := [[F64.of_Z 0; F64.of_Z 0; F64.of_Z 1]] in
  let labels := [0] in
  np_argmax_axis1 logits = Ok [2]
  /\ predicted_positive [2] = 0
  /\ accuracy logits labels = Ok (F64.zero, F64.zero, F64.nan)
  /\ F64.is_nan F64.zero = false.
Proof.
  cbv zeta. repeat split; vm_compute; reflexivity.
Qed.

(** C4, amended: with one label per row and fewer than 2^63 rows, an
    empty batch makes [accuracy] raise ZeroDivisionError, and on every other
    batch it returns; the precision it returns is [nan] when every predicted
    class is 0 or 1 and no example is predicted positive, whatever the
    labels, and the recall it returns is [nan] when every true label is 0 or
    1 and no example is truly positive, whatever the predicted classes;
    neither is replaced by zero or another default. *)
Theorem zero_denominators_give_nan
        (logits : list (list float)) (labels outputs : list Z) :
  np_argmax_axis1 logits = Ok outputs ->
  len labels = len outputs ->
  len outputs < 2 ^ 63 ->
  (outputs = [] -> accuracy logits labels = Raise ZeroDivisionError)
  /\ (outputs <> [] ->
      exists acc precision recall,
        accuracy logits labels = Ok (acc, precision, recall)
        /\ (Forall binary outputs -> predicted_positive outputs = 0 ->
            precision = F64.nan)
        /\ (Forall binary labels -> actual_positive labels = 0 ->
            recall = F64.nan)).
Proof.
  intros Harg Hlen Hb.
  rewrite (accuracy_same_shape logits labels outputs Harg Hlen Hb).
  split.
  - intros ->. reflexivity.
  - intros Hne.
    assert (E : (len outputs =? 0) = false).
    { apply Z.eqb_neq. destruct outputs as [|o os]; [congruence|].
      rewrite len_cons. pose proof (len_nonneg os). lia. }
    rewrite E. do 3 eexists. split; [reflexivity|].
    pose proof (true_positive_bounds outputs labels) as (H0 & Hp & Ha).
    split.
    + intros Ho Hz. rewrite (np_sum_binary outputs Ho Hb).
      fold (predicted_positive outputs).
      replace (true_positive outputs labels) with 0 by lia.
      rewrite Hz. reflexivity.
    + intros Hl Hz. rewrite (np_sum_binary labels Hl) by lia.
      fold (actual_positive labels).
      replace (true_positive outputs labels) with 0 by lia.
      rewrite Hz. reflexivity.
Qed.

(** One example scored over three classes, predicted 2, with the label 0:
    nothing is truly positive and the recall is [nan].  Two examples
    predicted 0 with the labels [2,0]: nothing is predicted positive and the
    precision is [nan].  No rows at all: ZeroDivisionError. *)
Lemma zero_denominators_give_nan_witness :
  let row0 := [F64.of_Z 1; F64.of_Z 0; F64.of_Z 0] in
  let row2 := [F64.of_Z 0; F64.of_Z 0; F64.of_Z 1] in
  (exists acc precision,
     accuracy [row2] [0] = Ok (acc, precision, F64.nan))
  /\ (exists acc recall,
        accuracy [row0; row0] [2; 0] = Ok (acc, F64.nan, recall))
  /\ accuracy [] [] = Raise ZeroDivisionError.
Proof.
  intros row0 row2. split; [|split].
  - destruct (zero_denominators_give_nan [row2] [0] [2]) as [_ H].
    + vm_compute. reflexivity.
    + reflexivity.
    + reflexivity.
    + destruct H as (a & p & r & Hacc & _ & Hr); [discriminate|].
      exists a, p. rewrite Hacc, Hr; [reflexivity| |reflexivity].
      repeat constructor; now left.
  - destruct (zero_denominators_give_nan [row0; row0] [2; 0] [0; 0])
      as [_ H].
    + vm_compute. reflexivity.
    + reflexivity.
    + reflexivity.
    + destruct H as (a & p & r & Hacc & Hp & _); [discriminate|].
      exists a, r. rewrite Hacc, Hp; [reflexivity| |reflexivity].
      repeat constructor; now left.
  - destruct (zero_denominators_give_nan [] [] []) as [H _].
    + reflexivity.
    + reflexivity.
    + reflexivity.
    + apply H. reflexivity.
Defined.

(** ** C5: the checkpoint decision *)

(** C5: an epoch that ends has called [torch.save] exactly when the
    accuracy of its evaluation is greater than or equal to [best_accuracy]
    (a tie saves), as its last call and nowhere before, and then
    [best_accuracy] becomes that accuracy; otherwise [best_accuracy] is
    unchanged. A run of five epochs whose evaluation accuracies are 0.5,
    0.6, 0.55, 0.6 and 0.7 saves in the first, second, fourth and fifth
    epoch and not in the third. *)
Theorem checkpoint_iff_accuracy_not_below_best :
  (forall (Tensor : Type) (tensor_mean : Tensor -> Tensor)
          (tensor_item : Tensor -> float)
          (model : trace Tensor -> Batch -> ModelOutput Tensor) (n_gpu : Z)
          (data_loaders : list DataLoader) (step_per_epoch : Z)
          (best best' : float) (ie : nat) (tr tr' : trace Tensor),
      epoch tensor_mean tensor_item model n_gpu data_loaders step_per_epoch
            best ie tr = Ok (best', tr') ->
      exists res evs,
        before_checkpoint tensor_mean tensor_item model n_gpu data_loaders
                          step_per_epoch ie tr = Ok (res, tr ++ evs)
        /\ Forall (fun e => is_save e = false) evs
        /\ (if F64.geb (r_eval_accuracy res) best
            then tr' = tr ++ evs ++ [torch_save]
                 /\ best' = r_eval_accuracy res
            else tr' = tr ++ evs /\ best' = best))
  /\ (exists best tr,
         run_main scalar_mean scalar_item drifting_model 1
                  (args_of 64 64 5) folds_eval_twenty = Ok (best, tr)
         /\ epoch_log tr
            = [(F64.decimal 5 1, true);
               (F64.decimal 6 1, true);
               (F64.decimal 55 2, false);
               (F64.decimal 6 1, true);
               (F64.decimal 7 1, true)]
         /\ best = F64.decimal 7 1).
Proof.
  split.
  - intros. now apply epoch_runs.
  - do 2 eexists. split; [vm_compute; reflexivity|].
    split; vm_compute; reflexivity.
Qed.

(** The first epoch of the five-epoch run: its accuracy 0.5 is not below
    the initial best 0, so it saves. *)
Lemma checkpoint_iff_accuracy_not_below_best_witness :
  match epoch scalar_mean scalar_item drifting_model 1
              (map (fun ds => {| dl_dataset := ds; dl_batch_size := 64 |})
                   folds_eval_twenty)
              3 F64.zero 0 [] with
  | Ok (best', tr') =>
      F64.geb best' F64.zero = true
      /\ exists evs, tr' = evs ++ [torch_save]
                     /\ Forall (fun e => is_save e = false) evs
  | Raise _ => False
  end.
Proof.
  destruct (epoch scalar_mean scalar_item drifting_model 1
              (map (fun ds => {| dl_dataset := ds; dl_batch_size := 64 |})
                   folds_eval_twenty)
              3 F64.zero 0 []) as [[best' tr']|e] eqn:E.
  - destruct (proj1 checkpoint_iff_accuracy_not_below_best _ _ _ _ _ _ _ _ _ _ _ _ E)
      as (res & evs & Hb & Hq & Hc).
    assert (Hg : F64.geb (r_eval_accuracy res) F64.zero = true).
    { vm_compute in Hb. injection Hb as <- _. reflexivity. }
    rewrite Hg in Hc. destruct Hc as [-> ->].
    split; [exact Hg|]. exists evs. split; [reflexivity|exact Hq].
  - vm_compute in E. discriminate E.
Defined.

(** ** C6, C8, C10 on concrete runs *)

(** The five-epoch run: the best accuracy after three epochs (0.6) is not
    below the one after one epoch (0.5). *)
Lemma best_accuracy_never_decreases_witness :
  let dls := map (fun ds => {| dl_dataset := ds; dl_batch_size := 64 |})
                 folds_eval_twenty in
  match epochs scalar_mean scalar_item drifting_model 1 dls 3 1 F64.zero [],
        epochs scalar_mean scalar_item drifting_model 1 dls 3 3 F64.zero []
  with
  | Ok (bj, _), Ok (bk, _) =>
      bj = F64.decimal 5 1 /\ bk = F64.decimal 6 1 /\ F64.geb bk bj = true
  | _, _ => False
  end.
Proof.
  intro dls.
  destruct (epochs scalar_mean scalar_item drifting_model 1 dls 3 1 F64.zero [])
    as [[bj trj]|e] eqn:Ej; [|vm_compute in Ej; discriminate Ej].
  destruct (epochs scalar_mean scalar_item drifting_model 1 dls 3 3 F64.zero [])
    as [[bk trk]|e] eqn:Ek; [|vm_compute in Ek; discriminate Ek].
  split; [vm_compute in Ej; injection Ej as <- _; reflexivity|].
  split; [vm_compute in Ek; injection Ek as <- _; reflexivity|].
  apply (best_accuracy_never_decreases float scalar_mean scalar_item
           drifting_model 1 dls 3 1%nat 3%nat [] trj trk);
    [repeat constructor|exact Ej|exact Ek].
Defined.

(** An evaluation fold of three examples in batches of two and one: the
    batch accuracies are 1/2 and 1/1 and the reported accuracy is their
    mean 0.75, not the share 2/3 of the examples predicted right. *)
Lemma evaluation_averages_per_batch_witness :
  let dls := map (fun ds => {| dl_dataset := ds; dl_batch_size := 2 |})
                 folds_eval_three in
  exists eval_loader,
    index dls 3 = Ok eval_loader
    /\ 0 < dl_batch_size eval_loader
    /\ map batch_size_of (dl_iter eval_loader) = [2; 1]
    /\ evaluate scalar_mean scalar_item model_wrong_on_7 dls []
       = (emit model_eval ;;
          vals <- eval_batches scalar_mean scalar_item model_wrong_on_7
                               (dl_iter eval_loader) ;;
          lift (batch_averages vals (len (dl_iter eval_loader)))) []
    /\ (exists l p r tr,
           evaluate scalar_mean scalar_item model_wrong_on_7 dls []
           = Ok ((l, F64.decimal 75 2, p, r), tr))
    /\ F64.decimal 75 2 <> np_true_divide 2 3.
Proof.
  intro dls. eexists. split; [reflexivity|]. split; [reflexivity|].
  split; [vm_compute; reflexivity|].
  split.
  - apply (evaluation_averages_per_batch _ scalar_mean scalar_item
             model_wrong_on_7 dls); reflexivity.
  - split; [do 4 eexists; vm_compute; reflexivity|].
    vm_compute. discriminate.
Defined.

(** The five-epoch run ends, and saves in its first epoch. *)
Lemma first_epoch_always_saves_witness :
  match run_main scalar_mean scalar_item drifting_model 1
                 (args_of 64 64 5) folds_eval_twenty with
  | Ok (_, tr) =>
      exists pre post,
        tr = pre ++ torch_save :: post
        /\ List.length (filter is_model_train pre) = 1%nat
  | Raise _ => False
  end.
Proof.
  destruct (run_main scalar_mean scalar_item drifting_model 1
                     (args_of 64 64 5) folds_eval_twenty)
    as [[best tr]|e] eqn:E; [|vm_compute in E; discriminate E].
  apply (first_epoch_always_saves _ _ _ _ _ _ _ best tr E).
  - vm_compute. discriminate.
  - intros ds Hds. vm_compute in Hds. injection Hds as <-. reflexivity.
Defined.

(** ** The properties of whole runs on concrete runs *)

(** The five-epoch run with accuracies 0.5, 0.6, 0.55, 0.6, 0.7. *)
Lemma run_follows_checkpoint_policy_witness :
  match run_main scalar_mean scalar_item drifting_model 1
                 (args_of 64 64 5) folds_eval_twenty with
  | Ok (best, tr) =>
      let accs := logged "eval_accuracy" tr in
      epoch_log tr = checkpoint_policy F64.zero accs
      /\ best = policy_best F64.zero accs
      /\ List.length accs = 5%nat
      /\ (forall a, In a accs -> F64.is_nan a = false -> F64.geb best a = true)
      /\ (best = F64.zero \/ In best accs)
  | Raise _ => False
  end.
Proof.
  destruct (run_main scalar_mean scalar_item drifting_model 1
                     (args_of 64 64 5) folds_eval_twenty)
    as [[best tr]|e] eqn:E; [|vm_compute in E; discriminate E].
  exact (run_follows_checkpoint_policy _ _ _ _ _ _ _ _ _ E).
Defined.

(** One epoch over training folds of 1, 2 and 2 batches: five steps of each
    kind, and a scheduler created for three. *)
Lemma run_step_counts_witness :
  match run_main scalar_mean scalar_item perfect_model 1
                 (args_of 1 1 1) unequal_folds with
  | Ok (_, tr) =>
      count_events is_backward tr = 5%nat
      /\ count_events is_optimizer_step tr = 5%nat
      /\ count_events is_scheduler_step tr = 5%nat
      /\ count_events is_model_train tr = 1%nat
      /\ exists w, In (get_linear_schedule_with_warmup w 3) tr
  | Raise _ => False
  end.
Proof.
  destruct (run_main scalar_mean scalar_item perfect_model 1
                     (args_of 1 1 1) unequal_folds)
    as [[best tr]|e] eqn:E; [|vm_compute in E; discriminate E].
  destruct (run_step_counts _ _ _ _ _ (args_of 1 1 1) unequal_folds
              (map (fun ds => {| dl_dataset := ds; dl_batch_size := 1 |})
                   unequal_folds)
              best tr E eq_refl) as (H1 & H2 & H3 & H4 & spe & Hs & Hh).
  repeat split; try assumption.
  injection Hs as <-. eexists. exact Hh.
Defined.

(** Two epochs over the folds with an evaluation fold of three examples,
    in batches of two. *)
Lemma run_replays_batches_witness :
  match run_main scalar_mean scalar_item model_wrong_on_7 1
                 (args_of 2 2 2) folds_eval_three with
  | Ok (_, tr) =>
      map batch_size_of (train_batches_of tr) = [1; 1; 1; 1; 1; 1]
      /\ map batch_size_of (eval_batches_of tr) = [2; 1; 2; 1]
  | Raise _ => False
  end.
Proof.
  destruct (run_main scalar_mean scalar_item model_wrong_on_7 1
                     (args_of 2 2 2) folds_eval_three)
    as [[best tr]|e] eqn:E; [|vm_compute in E; discriminate E].
  destruct (run_replays_batches _ _ _ _ _ (args_of 2 2 2) folds_eval_three
              (map (fun ds => {| dl_dataset := ds; dl_batch_size := 2 |})
                   folds_eval_three)
              {| dl_dataset := nth 3 folds_eval_three [];
                 dl_batch_size := 2 |}
              best tr E eq_refl eq_refl) as (H1 & H2).
  rewrite H1, H2. split; vm_compute; reflexivity.
Defined.

Lemma run_log_keys_witness :
  match run_main scalar_mean scalar_item model_wrong_on_7 1
                 (args_of 2 2 2) folds_eval_three with
  | Ok (_, tr) =>
      log_keys tr
      = ["eval_accuracy"; "eval_loss"; "eval_precision"; "eval_recall";
         "train_loss";
         "eval_accuracy"; "eval_loss"; "eval_precision"; "eval_recall";
         "train_loss"]%string
  | Raise _ => False
  end.
Proof.
  destruct (run_main scalar_mean scalar_item model_wrong_on_7 1
                     (args_of 2 2 2) folds_eval_three)
    as [[best tr]|e] eqn:E; [|vm_compute in E; discriminate E].
  exact (run_log_keys _ _ _ _ _ _ _ _ _ E).
Defined.

Lemma evaluation_is_inference_only_witness :
  let dls := map (fun ds => {| dl_dataset := ds; dl_batch_size := 2 |})
                 folds_eval_three in
  match evaluate scalar_mean scalar_item model_wrong_on_7 dls [] with
  | Ok (_, tr') =>
      exists evs,
        tr' = [] ++ model_eval :: evs
        /\ Forall (fun e => inference_call e = true) evs
        /\ map batch_size_of (eval_batches_of evs) = [2; 1]
  | Raise _ => False
  end.
Proof.
  intro dls.
  destruct (evaluate scalar_mean scalar_item model_wrong_on_7 dls [])
    as [[v tr']|e] eqn:E; [|vm_compute in E; discriminate E].
  destruct (evaluation_is_inference_only _ _ _ _ dls
              {| dl_dataset := nth 3 folds_eval_three [];
                 dl_batch_size := 2 |} [] tr' v eq_refl E)
    as (evs & H1 & H2 & H3).
  exists evs. split; [exact H1|]. split; [exact H2|].
  rewrite H3. vm_compute. reflexivity.
Defined.

(** Folds of four examples in batches of two: two batches per training
    fold, six training steps, and a logged [train_loss] of 6.0 / 6. *)
Lemma train_loss_over_equal_folds_witness :
  let dl := fun ds => {| dl_dataset := ds; dl_batch_size := 2 |} in
  let dls := map dl folds_of_four in
  match epoch scalar_mean scalar_item perfect_model 1 dls 6 F64.zero 0 [] with
  | Ok (_, tr') =>
      exists evs,
        tr' = [] ++ evs
        /\ logged "train_loss" evs = [F64.div (F64.of_Z 6) (F64.of_Z 6)]
  | Raise _ => False
  end.
Proof.
  intros dl dls.
  destruct (epoch scalar_mean scalar_item perfect_model 1 dls 6 F64.zero 0 [])
    as [[b tr']|e] eqn:E; [|vm_compute in E; discriminate E].
  destruct (train_loss_over_equal_folds _ scalar_mean scalar_item
              perfect_model 1 dls
              (dl (nth 0 folds_of_four [])) (dl (nth 1 folds_of_four []))
              (dl (nth 2 folds_of_four [])) 6 F64.zero b 0%nat [] tr'
              eq_refl eq_refl eq_refl eq_refl eq_refl eq_refl eq_refl E)
    as (evs & H1 & H2 & H3).
  exists evs. split; [exact H1|]. rewrite H3. vm_compute. reflexivity.
Defined.

Lemma main_startup_witness :
  run_main scalar_mean scalar_item perfect_model 1
           (args_of 4 4 1) [[example_of 1]; [example_of 0]]
  = Raise IndexError
  /\ run_main scalar_mean scalar_item perfect_model 1
              (args_of 0 4 1) folds_of_four
     = Raise ValueError
  /\ exists step_per_epoch,
       run_main scalar_mean scalar_item perfect_model 1
                (args_of 4 4 0) folds_of_four
       = Ok (F64.zero, prelude (args_of 4 4 0) step_per_epoch).
Proof.
  split; [|split].
  - apply (proj1 (main_startup _ scalar_mean scalar_item perfect_model 1
                    (args_of 4 4 1) [[example_of 1]; [example_of 0]])).
    cbn. lia.
  - apply (proj1 (proj2 (main_startup _ scalar_mean scalar_item perfect_model
                           1 (args_of 0 4 1) folds_of_four))).
    + cbn. lia.
    + cbn. lia.
  - apply (proj2 (proj2 (main_startup _ scalar_mean scalar_item perfect_model
                           1 (args_of 4 4 0) folds_of_four))).
    + cbn. lia.
    + reflexivity.
    + cbn. lia.
Defined.

Lemma empty_folds_raise_witness :
  run_main scalar_mean scalar_item perfect_model 1
           (args_of 2 2 1) folds_eval_empty
  = Raise ZeroDivisionError
  /\ exists e,
       run_main scalar_mean scalar_item perfect_model 1
                (args_of 2 2 1) folds_first_empty
       = Raise e.
Proof.
  split.
  - apply (proj1 (empty_folds_raise _ scalar_mean scalar_item perfect_model 1
                    (args_of 2 2 1)
                    [example_of 1; example_of 0] [example_of 1; example_of 0]
                    [example_of 0; example_of 1] [] []
                    eq_refl ltac:(cbn; lia))).
    reflexivity.
  - apply (proj2 (empty_folds_raise _ scalar_mean scalar_item perfect_model 1
                    (args_of 2 2 1)
                    [] [example_of 1; example_of 0]
                    [example_of 0; example_of 1] [example_of 1; example_of 0]
                    [] eq_refl ltac:(cbn; lia))).
    reflexivity.
Defined.
